(** * StillGen EL Zone engine: a shallow embedding of [stillgen/el_zone.py]

  The development follows the Python module function by function.

  Number model.  The samples of the program are IEEE floating-point
  numbers.  They are idealised here as exact numbers: rationals ([Q])
  wherever the code only adds, multiplies, divides, compares, clips and
  truncates (scopes, compositor, zone stops), and reals ([R]) where it
  raises to a non-integer power (zone boundaries, decoding curves, display
  colours).  Rounding error and NaN are outside the model.  Unsigned 8-bit
  canvas samples and all sizes and indices are integers ([Z]). *)

From Stdlib Require Import String ZArith QArith Qminmax Qreals Qround Reals Psatz Bool List.
Import ListNotations.

Set Implicit Arguments.

(** ** Python and NumPy primitives used by the module *)

Module Py.

(** [l[i]]: indices below zero count from the end, an index outside
    [-len, len) raises [IndexError] (here [None]). *)
Definition getitem {A : Type} (l : list A) (i : Z) : option A :=
  let n := Z.of_nat (length l) in
  if ((0 <=? i) && (i <? n))%Z then nth_error l (Z.to_nat i)
  else if ((- n <=? i) && (i <? 0))%Z then nth_error l (Z.to_nat (n + i))
  else None.

(** [enumerate(l)] *)
Fixpoint enumerate_from {A : Type} (i : Z) (l : list A) : list (Z * A) :=
  match l with
  | [] => []
  | x :: r => (i, x) :: enumerate_from (i + 1) r
  end.

Definition enumerate {A : Type} (l : list A) : list (Z * A) :=
  enumerate_from 0 l.

(** [int(q)]: truncation toward zero. *)
Definition int (q : Q) : Z := Z.quot (Qnum q) (Zpos (Qden q)).

(** [range(start, stop, step)] for a positive step, as the list it yields. *)
Fixpoint range_fuel (fuel : nat) (start stop step : Z) : list Z :=
  match fuel with
  | O => []
  | S k => if (start <? stop)%Z
           then start :: range_fuel k (start + step) stop step
           else []
  end.

Definition range (start stop step : Z) : list Z :=
  range_fuel (Z.to_nat (stop - start)) start stop step.

(** [l[::step]] for a positive step. *)
Fixpoint stride_fuel {A : Type} (fuel : nat) (step : nat) (l : list A) : list A :=
  match fuel, l with
  | S k, x :: _ => x :: stride_fuel k step (skipn step l)
  | _, _ => []
  end.

Definition stride {A : Type} (step : Z) (l : list A) : list A :=
  stride_fuel (length l) (Z.to_nat step) l.

(** The bound [k] of a slice [a[k:..]] or [a[..:k]] on an axis of length [n]. *)
Definition slice_index (n k : Z) : Z :=
  if (k <? 0)%Z then Z.max (k + n) 0 else Z.min k n.

(** Number of positions selected by [a[start:stop]] on an axis of length [n]. *)
Definition slice_length (n start stop : Z) : Z :=
  Z.max 0 (slice_index n stop - slice_index n start).

End Py.

Module Np.

(** Two-dimensional arrays, row-major: [a[row][column]]. *)
Definition array2 (A : Type) : Type := list (list A).

Definition map2d {A B : Type} (f : A -> B) (a : array2 A) : array2 B :=
  map (map f) a.

Fixpoint zip_with {A B C : Type} (f : A -> B -> C)
         (l : list A) (r : list B) : list C :=
  match l, r with
  | x :: l', y :: r' => f x y :: zip_with f l' r'
  | _, _ => []
  end.

(** [out[mask] = c] for a boolean mask of the shape of [out]. *)
Definition mask_assign {A : Type} (mask : array2 bool) (c : A)
           (out : array2 A) : array2 A :=
  zip_with (zip_with (fun (m : bool) (o : A) => if m then c else o)) mask out.

(** Real-valued comparisons as the booleans NumPy computes. *)
Definition Rleb (x y : R) : bool := if Rle_dec x y then true else false.
Definition Rltb (x y : R) : bool := if Rlt_dec x y then true else false.

(** [x ** y] / [np.power(x, y)] on a base [x >= 0]: zero to a positive
    power is zero, a positive base follows [exp (y * ln x)].  (A negative
    base with a fractional exponent is NaN in NumPy and is not modelled.) *)
Definition power (x y : R) : R :=
  if Req_dec_T x 0
  then (if Req_dec_T y 0 then 1%R else 0%R)
  else Rpower x y.

(** [np.clip(x, lo, None)] and [np.clip(x, lo, hi)] on reals. *)
Definition clip_low (x lo : R) : R := Rmax x lo.

(** [np.clip(x, lo, hi)] is [minimum(maximum(x, lo), hi)]. *)
Definition clipQ (x lo hi : Q) : Q := Qmin (Qmax x lo) hi.
Definition clipZ (x lo hi : Z) : Z := Z.min (Z.max x lo) hi.

(** An array of [rows] rows that all have [cols] entries. *)
Definition has_shape {A : Type} (rows cols : Z) (a : array2 A) : Prop :=
  Z.of_nat (length a) = rows /\
  Forall (fun row => Z.of_nat (length row) = cols) a.

(** Normalised index along an axis of length [n]; [None] is [IndexError]. *)
Definition index (n i : Z) : option Z :=
  if ((0 <=? i) && (i <? n))%Z then Some i
  else if ((- n <=? i) && (i <? 0))%Z then Some (n + i)%Z
  else None.

Definition Qltb (x y : Q) : bool := negb (Qle_bool y x).

(** Whether a value of shape [value] can be assigned to a region of shape
    [region] (rows, columns): every axis agrees or is broadcast from one. *)
Definition assignable (region value : Z * Z) : bool :=
  (((fst value =? fst region) || (fst value =? 1)) &&
   ((snd value =? snd region) || (snd value =? 1)))%Z.

(** [np.linspace(start, stop, num, dtype=int)] for integer end points: the
    [num] evenly spaced values, truncated.  (The values are non-negative
    for the frames the module accepts, where truncation and floor agree.) *)
Definition linspace_int (start stop num : Z) : list Z :=
  if (num =? 1)%Z then [start]
  else
    let step := ((inject_Z stop - inject_Z start) / inject_Z (num - 1))%Q in
    map (fun i : Z => Py.int (inject_Z i * step + inject_Z start)%Q)
        (Py.range 0 num 1).

End Np.

(** ** Module constants *)

Definition STOPS_LIST : list Q :=
[-7; -6; -5; -4; -3; -2; -1; -0.5; 0; 0.5; 1; 2; 3; 4; 5; 6; 7]%Q.

Definition COLOR_LIST_8BIT : list (Z * Z * Z) :=
[ (3, 3, 3);
  (98, 71, 155);
  (158, 126, 184);
  (24, 116, 167);
  (39, 174, 228);
  (27, 168, 75);
  (93, 187, 71);
  (148, 200, 64);
  (144, 140, 135);
  (251, 232, 0);
  (255, 248, 166);
  (244, 112, 42);
  (247, 170, 71);
  (239, 28, 38);
  (229, 126, 140);
  (243, 190, 192);
  (255, 255, 255) ]%Z.

Definition GRAY18 : R := 0.18%R.
Definition EXP_RANGE : Q := 7%Q.

(** A display colour: three real channels. *)
Definition color : Type := (R * R * R)%type.
Definition black : color := (0%R, 0%R, 0%R).

(** ** ZoneClassifier: [ELZoneProcessor.map_luminance_to_zones] *)

Module ZoneClassifier.

(** [_srgb_eotf], one sample. *)
Definition _srgb_eotf (x : R) : R :=
  if Rle_dec x 0.04045
  then (x / 12.92)%R
  else Np.power ((x + 0.055) / 1.055) 2.4.

Definition per_channel (f : R -> R) (c : color) : color :=
  let '(r, g, b) := c in (f r, f g, f b).

(** [self.color_list_8bit / 255.0] *)
Definition color_list_unit : list color :=
  map (fun c : Z * Z * Z =>
         let '(r, g, b) := c in
         (IZR r / 255, IZR g / 255, IZR b / 255)%R) COLOR_LIST_8BIT.

(** [self.color_list_linear] *)
Definition color_list_linear : list color :=
  map (per_channel _srgb_eotf) color_list_unit.

(** [self.color_list_display = self.color_list_linear ** (1/2.4)] *)
Definition color_list_display : list color :=
  map (per_channel (fun x => Np.power x (1 / 2.4))) color_list_linear.

(** [rgb_to_y_bt2020] on a three-channel sample. *)
Definition rgb_to_y_bt2020 (rgb : color) : R :=
  let '(r, g, b) := rgb in (r * 0.2627 + g * 0.6780 + b * 0.0593)%R.

(** The three branches that compute [(low_stops, high_stops)] for the zone
    at position [idx]; [None] stands for an [IndexError] of [STOPS_LIST[..]]. *)
Definition zone_stops (idx : Z) (stops : Q) : option (Q * Q) :=
  if Qeq_bool stops (- EXP_RANGE) then
    match Py.getitem STOPS_LIST (idx + 1), Py.getitem STOPS_LIST idx with
    | Some nxt, Some cur =>
        let upper_diff := (nxt - cur)%Q in
        let high_stops := (stops + upper_diff / 2)%Q in
        let low_stops := (-20)%Q in
        Some (low_stops, high_stops)
    | _, _ => None
    end
  else if Qeq_bool stops EXP_RANGE then
    match Py.getitem STOPS_LIST idx, Py.getitem STOPS_LIST (idx - 1) with
    | Some cur, Some prv =>
        let lower_diff := (cur - prv)%Q in
        let high_stops := 20%Q in
        let low_stops := (stops - lower_diff / 2)%Q in
        Some (low_stops, high_stops)
    | _, _ => None
    end
  else
    match Py.getitem STOPS_LIST (idx + 1), Py.getitem STOPS_LIST idx,
          Py.getitem STOPS_LIST (idx - 1) with
    | Some nxt, Some cur, Some prv =>
        let upper_diff := (nxt - cur)%Q in
        let lower_diff := (cur - prv)%Q in
        let high_stops := (stops + upper_diff / 2)%Q in
        let low_stops := (stops - lower_diff / 2)%Q in
        Some (low_stops, high_stops)
    | _, _, _ => None
    end.

(** [GRAY18 * (2 ** s)] *)
Definition stops_to_linear (s : Q) : R := (GRAY18 * Np.power 2 (Q2R s))%R.

(** [(low_value, high_value)] of the zone at position [idx]. *)
Definition zone_values (idx : Z) (stops : Q) : option (R * R) :=
  match zone_stops idx stops with
  | Some (low_stops, high_stops) =>
      Some (stops_to_linear low_stops, stops_to_linear high_stops)
  | None => None
  end.

(** [(low_value <= linear_y) & (linear_y < high_value)], one sample. *)
Definition zone_mask (low_value high_value linear_y : R) : bool :=
  Np.Rleb low_value linear_y && Np.Rltb linear_y high_value.

(** The [for idx, stops in enumerate(STOPS_LIST)] loop over the whole
    luminance array; every round overwrites the masked positions. *)
Fixpoint zone_loop (entries : list (Z * Q)) (linear_y : Np.array2 R)
         (out_colors : Np.array2 color) : option (Np.array2 color) :=
  match entries with
  | [] => Some out_colors
  | (idx, stops) :: rest =>
      match zone_values idx stops, Py.getitem color_list_display idx with
      | Some (low_value, high_value), Some c =>
          let mask := Np.map2d (zone_mask low_value high_value) linear_y in
          zone_loop rest linear_y (Np.mask_assign mask c out_colors)
      | _, _ => None
      end
  end.

Definition map_luminance_to_zones (linear_y : Np.array2 R)
  : option (Np.array2 color) :=
  let out_colors := Np.map2d (fun _ : R => black) linear_y in
  zone_loop (Py.enumerate STOPS_LIST) linear_y out_colors.

(** The same loop read at one position of the array. *)
Fixpoint zone_loop_px (entries : list (Z * Q)) (y : R) (out : color)
  : option color :=
  match entries with
  | [] => Some out
  | (idx, stops) :: rest =>
      match zone_values idx stops, Py.getitem color_list_display idx with
      | Some (low_value, high_value), Some c =>
          zone_loop_px rest y (if zone_mask low_value high_value y then c else out)
      | _, _ => None
      end
  end.

(** The colour the loop leaves at a position of luminance [y]. *)
Definition zone_color_px (y : R) : color :=
  match zone_loop_px (Py.enumerate STOPS_LIST) y black with
  | Some c => c
  | None => black
  end.

(** The zone table the loop goes through: one [(low, high)] per entry. *)
Fixpoint zone_table_of (entries : list (Z * Q)) : option (list (R * R)) :=
  match entries with
  | [] => Some []
  | (idx, stops) :: rest =>
      match zone_values idx stops, zone_table_of rest with
      | Some lh, Some t => Some (lh :: t)
      | _, _ => None
      end
  end.

Definition zone_table : option (list (R * R)) :=
  zone_table_of (Py.enumerate STOPS_LIST).

(** The eighteen boundaries of the table in stops, as the three branches
    above produce them (checked against [zone_stops] below). *)
Definition BOUNDARY_STOPS : list Q :=
  [-20; -6.5; -5.5; -4.5; -3.5; -2.5; -1.5; -0.75; -0.25;
   0.25; 0.75; 1.5; 2.5; 3.5; 4.5; 5.5; 6.5; 20]%Q.

Definition boundary (k : nat) : R :=
  stops_to_linear (nth k BOUNDARY_STOPS 0%Q).

(** Luminance [y] lies in the half-open interval of the zone at [idx]. *)
Definition in_zone (idx : nat) (y : R) : Prop :=
  exists stops low_value high_value,
    nth_error STOPS_LIST idx = Some stops /\
    zone_values (Z.of_nat idx) stops = Some (low_value, high_value) /\
    (low_value <= y < high_value)%R.

End ZoneClassifier.

(** ** LogDecoder: the decoding curves and their selection *)

Module LogDecoder.

Local Open Scope R_scope.

(** [_log_decoding_apple_log_fallback], one sample. *)
Definition _log_decoding_apple_log_fallback (x : R) : R :=
  Np.power 10 ((x - 0.3584) / 0.2471).

(** [_log_decoding_redlog3_fallback], one sample. *)
Definition _log_decoding_redlog3_fallback (x : R) : R :=
  let a := 0.224282 in
  let c := 0.01 in
  let linear :=
    if Rge_dec x c
    then Np.power 10 ((x * 1023 - 685) / 300) / 1023
    else x * a in
  Np.clip_low linear 0.

(** [_log_decoding_logc4_accurate], one sample. *)
Definition _log_decoding_logc4_accurate (x : R) : R :=
  let a := 0.0647954196341293 in
  let b := 0.0799017958419154 in
  let c := 0.0851858618842153 in
  let d := 0.0562935137369496 in
  let linear :=
    if Rgt_dec x c
    then Np.power 10 ((x - d) / a) - b / a
    else (x - c) / b in
  Np.clip_low linear 0.

(** [_log_decoding_fallback], one sample. *)
Definition _log_decoding_fallback (x : R) : R :=
  Np.power 2 ((x - 0.5) * 14).

(** What the module finds when it is imported: whether the [colour] package
    is there ([HAS_COLOUR]), whether [colour.models.log_decoding_ARRILogC4]
    can be looked up (the [try]/[except] of the selection), and the two
    decoding functions of that package, which are not part of this
    repository. *)
Record environment : Type := {
  HAS_COLOUR : bool;
  colour_has_ARRILogC4 : bool;
  colour_log_decoding_ARRILogC4 : R -> R;
  colour_log_decoding_SLog3 : R -> R
}.

(** [_get_decode_function]: the selected function ([None] for "linear")
    and the warnings written to the logger. *)
Definition _get_decode_function (env : environment) (log_format : string)
  : option (R -> R) * list string :=
  if String.eqb log_format "linear" then
    (None, [])
  else if String.eqb log_format "logc4" then
    if HAS_COLOUR env then
      if colour_has_ARRILogC4 env
      then (Some (colour_log_decoding_ARRILogC4 env), [])
      else (Some _log_decoding_logc4_accurate,
            ["Colour library LogC4 function not available, using accurate fallback"%string])
    else (Some _log_decoding_logc4_accurate, [])
  else if String.eqb log_format "slog3" && HAS_COLOUR env then
    (Some (colour_log_decoding_SLog3 env), [])
  else if String.eqb log_format "apple_log" then
    (Some _log_decoding_apple_log_fallback, [])
  else if String.eqb log_format "redlog3" then
    (Some _log_decoding_redlog3_fallback, [])
  else
    (Some _log_decoding_fallback,
     [("Log format '" ++ log_format ++ "' not supported, using fallback")%string]).

(** The environment of an installation without the [colour] package; the
    two function fields are then never read. *)
Definition env_without_colour : environment :=
  {| HAS_COLOUR := false;
     colour_has_ARRILogC4 := false;
     colour_log_decoding_ARRILogC4 := fun x => x;
     colour_log_decoding_SLog3 := fun x => x |}.

End LogDecoder.

(** ** The processor object and [create_el_zone_map] *)

Module ELZone.

Import LogDecoder ZoneClassifier.

Local Open Scope R_scope.

(** A frame given as an [H x W x 3] array of samples. *)
Definition frame_R : Type := Np.array2 color.

(** The fields [__init__] sets that the claims read. *)
Record ELZoneProcessor : Type := {
  log_format : string;
  decode_func : option (R -> R)
}.

(** [ELZoneProcessor(log_format)] with the warnings logged on the way. *)
Definition init (env : environment) (fmt : string)
  : ELZoneProcessor * list string :=
  let '(f, warnings) := _get_decode_function env fmt in
  ({| log_format := fmt; decode_func := f |}, warnings).

Definition channels_R (c : color) : list R := let '(r, g, b) := c in [r; g; b].

(** [img_array.max()]; the reduction of an empty array raises. *)
Definition array_max_R (img : frame_R) : option R :=
  match flat_map channels_R (concat img) with
  | [] => None
  | x :: rest => Some (fold_left Rmax rest x)
  end.

(** The array branch of the input conversion: values above one mean an
    8-bit range and are divided by 255.  (The input has three channels, so
    the alpha branch does not apply.) *)
Definition to_unit_range_R (image : frame_R) : option frame_R :=
  match array_max_R image with
  | None => None
  | Some m =>
      if Rgt_dec m 1.0
      then Some (Np.map2d (per_channel (fun x => x / 255.0)) image)
      else Some image
  end.

(** [linear_image]: the decode step of [create_el_zone_map]. *)
Definition decode_image (self : ELZoneProcessor) (img_array : frame_R) : frame_R :=
  match decode_func self with
  | Some f => Np.map2d (per_channel f) img_array
  | None => img_array
  end.

Definition create_el_zone_map (self : ELZoneProcessor) (image : frame_R)
  : option (Np.array2 color) :=
  match to_unit_range_R image with
  | None => None
  | Some img_array =>
      let linear_image := decode_image self img_array in
      let linear_y := Np.map2d rgb_to_y_bt2020 linear_image in
      map_luminance_to_zones linear_y
  end.

End ELZone.

(** ** Scope canvases: [H x W x 3] arrays of unsigned 8-bit samples *)

Module Canvas.

Definition rgb8 : Type := (Z * Z * Z)%type.
Definition canvas : Type := list (list rgb8).

(** A list rewritten position by position. *)
Fixpoint imap_from {A : Type} (k : nat) (f : nat -> A -> A) (l : list A)
  : list A :=
  match l with
  | [] => []
  | x :: r => f k x :: imap_from (S k) f r
  end.

Definition imap {A : Type} (f : nat -> A -> A) (l : list A) : list A :=
  imap_from 0 f l.

(** [np.zeros((rows, cols, 3), dtype=np.uint8)]; a negative dimension raises. *)
Definition zeros (rows cols : Z) : option canvas :=
  if ((rows <? 0) || (cols <? 0))%Z then None
  else Some (repeat (repeat (0, 0, 0)%Z (Z.to_nat cols)) (Z.to_nat rows)).

(** [a[i, j]] read at natural positions. *)
Definition get (a : canvas) (i j : nat) : option rgb8 :=
  match nth_error a i with
  | Some row => nth_error row j
  | None => None
  end.

(** [a[y, x] = f(a[y, x])] on a canvas of shape [rows x cols]. *)
Definition update_px (rows cols : Z) (a : canvas) (y x : Z)
           (f : rgb8 -> rgb8) : option canvas :=
  match Np.index rows y, Np.index cols x with
  | Some i, Some j =>
      Some (imap (fun i' row =>
                    if (i' =? Z.to_nat i)%nat
                    then imap (fun j' p =>
                                 if (j' =? Z.to_nat j)%nat then f p else p) row
                    else row) a)
  | _, _ => None
  end.

(** [a[y, :] = c] *)
Definition fill_row (rows : Z) (a : canvas) (y : Z) (c : rgb8)
  : option canvas :=
  match Np.index rows y with
  | Some i =>
      Some (imap (fun i' row =>
                    if (i' =? Z.to_nat i)%nat then map (fun _ => c) row else row) a)
  | None => None
  end.

(** [a[:, x] = c] *)
Definition fill_col (cols : Z) (a : canvas) (x : Z) (c : rgb8)
  : option canvas :=
  match Np.index cols x with
  | Some j =>
      Some (map (imap (fun j' p => if (j' =? Z.to_nat j)%nat then c else p)) a)
  | None => None
  end.

(** [a[start:stop, :] = c]; a slice never raises. *)
Definition fill_rows (rows : Z) (a : canvas) (start stop : Z) (c : rgb8)
  : canvas :=
  let lo := Z.to_nat (Py.slice_index rows start) in
  let hi := Z.to_nat (Py.slice_index rows stop) in
  imap (fun i' row =>
          if ((lo <=? i') && (i' <? hi))%nat then map (fun _ => c) row else row) a.

(** [a.astype(np.float32) / 255.0] *)
Definition to_float (a : canvas) : Np.array2 (Q * Q * Q) :=
  Np.map2d (fun p : rgb8 =>
              let '(r, g, b) := p in
              (inject_Z r / 255, inject_Z g / 255, inject_Z b / 255)%Q) a.

End Canvas.

(** ** Input frames of the scopes: [h x w x 3] arrays of rational samples *)

Module Frame.

Local Open Scope Q_scope.

Definition sample : Type := (Q * Q * Q)%type.
Definition frame : Type := Np.array2 sample.

Definition channels (p : sample) : list Q := let '(r, g, b) := p in [r; g; b].

(** [img_array.max()]; the reduction of an empty array raises. *)
Definition array_max (img : frame) : option Q :=
  match flat_map channels (concat img) with
  | [] => None
  | x :: rest => Some (fold_left Qmax rest x)
  end.

(** The array branch of the input conversion of the scopes. *)
Definition to_unit_range (image : frame) : option frame :=
  match array_max image with
  | None => None
  | Some m =>
      if Np.Qltb 1 m
      then Some (Np.map2d (fun p : sample =>
                             let '(r, g, b) := p in
                             (r / 255, g / 255, b / 255)) image)
      else Some image
  end.

(** [h, w = log_image.shape[:2]] *)
Definition height (img : frame) : Z := Z.of_nat (length img).
Definition width (img : frame) : Z :=
  match img with
  | [] => 0%Z
  | row :: _ => Z.of_nat (length row)
  end.

(** [a[y, x]] on a plane of shape [h x w]. *)
Definition fetch {A : Type} (h w : Z) (a : Np.array2 A) (y x : Z) : option A :=
  match Np.index h y, Np.index w x with
  | Some i, Some j =>
      match nth_error a (Z.to_nat i) with
      | Some row => nth_error row (Z.to_nat j)
      | None => None
      end
  | _, _ => None
  end.

(** [a[:, x]] on a plane of width [w]. *)
Fixpoint column_at {A : Type} (j : nat) (a : Np.array2 A) : option (list A) :=
  match a with
  | [] => Some []
  | row :: rest =>
      match nth_error row j, column_at j rest with
      | Some v, Some col => Some (v :: col)
      | _, _ => None
      end
  end.

Definition column {A : Type} (w : Z) (a : Np.array2 A) (x : Z)
  : option (list A) :=
  match Np.index w x with
  | Some j => column_at (Z.to_nat j) a
  | None => None
  end.

End Frame.

(** ** VectorScopeRenderer: [create_vectorscope] *)

Module VectorScope.

Import Canvas Frame.
Local Open Scope Q_scope.

(** [(y, u, v)] of one sample, with the coefficients of the source. *)
Definition rgb_to_yuv (p : sample) : Q * Q * Q :=
  let '(r, g, b) := p in
  (0.299 * r + 0.587 * g + 0.114 * b,
   -0.14713 * r - 0.28886 * g + 0.436 * b,
   0.615 * r - 0.51499 * g - 0.10001 * b).

Definition center_x (size : Z * Z) : Z := (fst size / 2)%Z.
Definition center_y (size : Z * Z) : Z := (snd size / 2)%Z.
Definition scale (size : Z * Z) : Z := (Z.min (fst size) (snd size) / 3)%Z.

(** The body of [if pixel_y > 0.01]: where the mark of a sample goes,
    [(x_coord, y_coord)], or [None] for a sample under the threshold. *)
Definition mark_position (size : Z * Z) (yuv : Q * Q * Q) : option (Z * Z) :=
  let '(pixel_y, pixel_u, pixel_v) := yuv in
  if Np.Qltb 0.01 pixel_y then
    let x_coord :=
      Py.int (Np.clipQ (inject_Z (center_x size) + pixel_v * inject_Z (scale size))
                       0 (inject_Z (fst size - 1))) in
    let y_coord :=
      Py.int (Np.clipQ (inject_Z (center_y size) - pixel_u * inject_Z (scale size))
                       0 (inject_Z (snd size - 1))) in
    Some (x_coord, y_coord)
  else None.

(** [np.clip(current_vals + [80, 80, 80], 0, 255)] *)
Definition add_intensity (p : rgb8) : rgb8 :=
  let '(r, g, b) := p in
  (Np.clipZ (r + 80) 0 255, Np.clipZ (g + 80) 0 255, Np.clipZ (b + 80) 0 255)%Z.

(** One round of the inner loop, on the state left by the rounds before;
    [None] is a raised [IndexError]. *)
Definition plot_pixel (size : Z * Z) (h w : Z) (yuv : Np.array2 (Q * Q * Q))
           (state : option canvas) (img_y img_x : Z) : option canvas :=
  match state with
  | None => None
  | Some vectorscope =>
      match fetch h w yuv img_y img_x with
      | None => None
      | Some px =>
          match mark_position size px with
          | Some (x_coord, y_coord) =>
              update_px (snd size) (fst size) vectorscope y_coord x_coord
                        add_intensity
          | None => Some vectorscope
          end
      end
  end.

Definition sample_coords (n : Z) : list Z :=
  Py.range 0 n (Z.max 1 (n / 50)).

(** The two nested loops over the sampled positions. *)
Definition plot_density (size : Z * Z) (log_image : frame)
           (vectorscope : canvas) : option canvas :=
  let h := height log_image in
  let w := width log_image in
  let yuv := Np.map2d rgb_to_yuv log_image in
  fold_left
    (fun state img_y =>
       fold_left (fun state' img_x => plot_pixel size h w yuv state' img_y img_x)
                 (sample_coords w) state)
    (sample_coords h) (Some vectorscope).

(** The marks of a frame in plotting order, for reading the loop. *)
Definition density_marks (size : Z * Z) (log_image : frame)
  : list (option (Z * Z)) :=
  let h := height log_image in
  let w := width log_image in
  let yuv := Np.map2d rgb_to_yuv log_image in
  flat_map
    (fun img_y =>
       map (fun img_x =>
              match fetch h w yuv img_y img_x with
              | Some px => mark_position size px
              | None => None
              end) (sample_coords w))
    (sample_coords h).

(** Writing a list of marks in order: what the loops do to the canvas. *)
Definition write_mark (size : Z * Z) (state : option canvas)
           (mark : option (Z * Z)) : option canvas :=
  match state, mark with
  | None, _ => None
  | Some vectorscope, Some (x_coord, y_coord) =>
      update_px (snd size) (fst size) vectorscope y_coord x_coord add_intensity
  | Some vectorscope, None => Some vectorscope
  end.

Section WithGraticule.

(** [_draw_vectorscope_graticule] draws circles, axes and targets through
    OpenCV or with trigonometric coordinates; it runs after all marks are
    plotted and is kept abstract. *)
Variable _draw_vectorscope_graticule : canvas -> Z * Z -> canvas.

Definition create_vectorscope (image : frame) (size : Z * Z)
  : option (Np.array2 (Q * Q * Q)) :=
  match to_unit_range image with
  | None => None
  | Some log_image =>
      match zeros (snd size) (fst size) with
      | None => None
      | Some vectorscope =>
          match plot_density size log_image vectorscope with
          | None => None
          | Some plotted =>
              Some (to_float (_draw_vectorscope_graticule plotted size))
          end
      end
  end.

End WithGraticule.

End VectorScope.

(** ** Compositor: the sizes and shapes of [create_4_quadrant_layout] *)

Module Compositor.

Local Open Scope Z_scope.

(** Shapes are [(rows, columns)], sizes are [(width, height)] as in the
    source.  The resampling itself belongs to Pillow; what is kept of
    [pil_image.resize((new_w, new_h), ...)] is that it either raises or
    returns an image of the requested size. *)
Section WithPillow.

(** Whether [resize((new_w, new_h))] returns rather than raises. *)
Variable pil_resize_returns : Z -> Z -> bool.

(** [_resize_to_fill_width]: the shape of the resized array. *)
Definition _resize_to_fill_width (shape : Z * Z) (target_size : Z * Z)
  : option (Z * Z) :=
  let '(h, w) := shape in
  let target_w := fst target_size in
  if w =? 0 then None
  else
    let scale := (inject_Z target_w / inject_Z w)%Q in
    let new_w := target_w in
    let new_h := Py.int (inject_Z h * scale)%Q in
    if pil_resize_returns new_w new_h then Some (new_h, new_w) else None.

(** [_resize_to_fit]: the shape of the letterboxed canvas it returns. *)
Definition _resize_to_fit (shape : Z * Z) (target_size : Z * Z)
  : option (Z * Z) :=
  let '(h, w) := shape in
  let '(target_w, target_h) := target_size in
  if (w =? 0) || (h =? 0) then None
  else
    let scale := Qmin (inject_Z target_w / inject_Z w)
                      (inject_Z target_h / inject_Z h) in
    let new_w := Py.int (inject_Z w * scale)%Q in
    let new_h := Py.int (inject_Z h * scale)%Q in
    if negb (pil_resize_returns new_w new_h) then None
    else if (target_h <? 0) || (target_w <? 0) then None
    else
      let y_offset := (target_h - new_h) / 2 in
      let x_offset := (target_w - new_w) / 2 in
      let region :=
        (Py.slice_length target_h y_offset (y_offset + new_h),
         Py.slice_length target_w x_offset (x_offset + new_w)) in
      if Np.assignable region (new_h, new_w)
      then Some (target_h, target_w)
      else None.

(** [top_image_height] and [bottom_height] of a finished layout; [None]
    when a step on the way raises.  The label drawing at the end does not
    change shapes and is left out. *)
Definition create_4_quadrant_layout
           (original_shape el_zone_shape vectorscope_shape waveform_shape : Z * Z)
           (output_size : Z * Z) : option (Z * Z) :=
  let out_w := fst output_size in
  let out_h := snd output_size in
  let quad_width := out_w / 2 in
  let quad_height := out_h / 2 in
  if (out_h <? 0) || (out_w <? 0) then None
  else
    match _resize_to_fill_width original_shape (quad_width, quad_height),
          _resize_to_fill_width el_zone_shape (quad_width, quad_height) with
    | Some orig_resized, Some el_zone_resized =>
        let top_image_height := fst orig_resized in
        let bottom_height := out_h - top_image_height in
        match _resize_to_fit vectorscope_shape (quad_width, bottom_height),
              _resize_to_fit waveform_shape (quad_width, bottom_height) with
        | Some vectorscope_resized, Some waveform_resized =>
            let top_rows := Py.slice_length out_h 0 top_image_height in
            let bottom_rows := Py.slice_length out_h top_image_height out_h in
            let left_cols := Py.slice_length out_w 0 quad_width in
            let right_cols := Py.slice_length out_w quad_width out_w in
            if Np.assignable (top_rows, left_cols) orig_resized &&
               Np.assignable (top_rows, right_cols) el_zone_resized &&
               Np.assignable (bottom_rows, left_cols) vectorscope_resized &&
               Np.assignable (bottom_rows, right_cols) waveform_resized
            then Some (top_image_height, bottom_height)
            else None
        | _, _ => None
        end
    | _, _ => None
    end.

End WithPillow.


End Compositor.

(** ** WaveformRenderer: [create_waveform] and [_draw_waveform_grid] *)

Module Waveform.

Import Canvas Frame.
Local Open Scope Q_scope.

(** [0.2126 * r + 0.7152 * g + 0.0722 * b] *)
Definition log_luminance_px (p : sample) : Q :=
  let '(r, g, b) := p in 0.2126 * r + 0.7152 * g + 0.0722 * b.

(** The three channel writes [min(255, current + 16 / 80 / 16)]. *)
Definition tint (p : rgb8) : rgb8 :=
  let '(r, g, b) := p in
  (Z.min 255 (r + 16), Z.min 255 (g + 80), Z.min 255 (b + 16))%Z.

(** The row of one sampled luminance: scaled, truncated, then clipped. *)
Definition y_position (size : Z * Z) (luma : Q) : Z :=
  Np.clipZ
    (Py.int ((1 - Np.clipQ luma 0 1) * inject_Z (snd size - 40) + 20))
    0 (snd size - 1).

(** [for y_pos in y_positions: ...] for one canvas column. *)
Definition draw_trace_column (size : Z * Z) (state : option canvas)
           (waveform_x : Z) (y_positions : list Z) : option canvas :=
  fold_left
    (fun st y_pos =>
       match st with
       | None => None
       | Some waveform =>
           update_px (snd size) (fst size) waveform y_pos waveform_x tint
       end)
    y_positions state.

(** [for waveform_x, img_x in enumerate(x_positions)], with its [break]. *)
Fixpoint trace_loop (size : Z * Z) (w : Z) (log_luminance : Np.array2 Q)
         (columns : list (Z * Z)) (waveform : canvas) : option canvas :=
  match columns with
  | [] => Some waveform
  | (waveform_x, img_x) :: rest =>
      if (fst size <=? waveform_x)%Z then Some waveform
      else
        match column w log_luminance img_x with
        | None => None
        | Some luma_column =>
            let sample_step :=
              Z.max 1 (Z.of_nat (length luma_column) / 200) in
            let sampled_luma := Py.stride sample_step luma_column in
            let y_positions := map (y_position size) sampled_luma in
            match draw_trace_column size (Some waveform) waveform_x y_positions with
            | None => None
            | Some waveform' => trace_loop size w log_luminance rest waveform'
            end
        end
  end.

Definition plot_trace (size : Z * Z) (log_image : frame) (waveform : canvas)
  : option canvas :=
  let w := width log_image in
  let log_luminance := Np.map2d log_luminance_px log_image in
  let x_positions := Np.linspace_int 0 (w - 1) (fst size) in
  trace_loop size w log_luminance (Py.enumerate x_positions) waveform.

Definition grid_color : rgb8 := (48, 48, 48)%Z.

(** Row of the grid line at [percent]. *)
Definition percent_row (size : Z * Z) (percent : Z) : Z :=
  (Py.int (inject_Z (snd size - 40) * (1 - inject_Z percent / 100)) + 20)%Z.

(** Column of the timing tick [i]. *)
Definition tick_column (size : Z * Z) (i : Z) : Z :=
  Py.int (inject_Z (fst size * i) / 8).

(** Row of a marker placed at the fraction [f] of the active height. *)
Definition marker_row (size : Z * Z) (f : Q) : Z :=
  (Py.int (inject_Z (snd size - 40) * f) + 20)%Z.

Definition draw_percent_line (size : Z * Z) (state : option canvas)
           (percent : Z) : option canvas :=
  match state with
  | None => None
  | Some waveform =>
      let y := percent_row size percent in
      if ((0 <=? y) && (y <? snd size))%Z
      then fill_row (snd size) waveform y grid_color
      else Some waveform
  end.

Definition draw_tick (size : Z * Z) (state : option canvas) (i : Z)
  : option canvas :=
  match state with
  | None => None
  | Some waveform =>
      let x := tick_column size i in
      if (x <? fst size)%Z
      then fill_col (fst size) waveform x (32, 32, 32)%Z
      else Some waveform
  end.

(** The five markers drawn last, as slices of rows. *)
Definition draw_markers (size : Z * Z) (waveform : canvas) : canvas :=
  let rows := snd size in
  let y_100 := 20%Z in
  let waveform := fill_rows rows waveform y_100 (y_100 + 2) (160, 160, 160)%Z in
  let y_75 := marker_row size 0.25 in
  let waveform := fill_rows rows waveform y_75 (y_75 + 1) (96, 96, 96)%Z in
  let y_50 := marker_row size 0.5 in
  let waveform := fill_rows rows waveform y_50 (y_50 + 1) (96, 96, 96)%Z in
  let y_18 := marker_row size 0.82 in
  let waveform := fill_rows rows waveform y_18 (y_18 + 1) (80, 80, 80)%Z in
  let y_0 := (rows - 20)%Z in
  fill_rows rows waveform (y_0 - 2) y_0 (160, 160, 160)%Z.

Definition _draw_waveform_grid (waveform : canvas) (size : Z * Z)
  : option canvas :=
  let lines :=
    fold_left (draw_percent_line size) [0; 25; 50; 75; 100]%Z (Some waveform) in
  let ticks := fold_left (draw_tick size) (Py.range 1 8 1) lines in
  match ticks with
  | None => None
  | Some waveform' => Some (draw_markers size waveform')
  end.

(** The canvas before it is converted to floats. *)
Definition waveform_canvas (image : frame) (size : Z * Z) : option canvas :=
  match to_unit_range image with
  | None => None
  | Some log_image =>
      match zeros (snd size) (fst size) with
      | None => None
      | Some waveform =>
          match plot_trace size log_image waveform with
          | None => None
          | Some traced => _draw_waveform_grid traced size
          end
      end
  end.

Definition create_waveform (image : frame) (size : Z * Z)
  : option (Np.array2 (Q * Q * Q)) :=
  option_map to_float (waveform_canvas image size).

End Waveform.

(** ** Value ranges of canvases and returned images *)

Module Ranges.

(** A canvas sample whose three channels fit an unsigned byte. *)
Definition uint8 (p : Canvas.rgb8) : Prop :=
  let '(r, g, b) := p in
  (0 <= r <= 255 /\ 0 <= g <= 255 /\ 0 <= b <= 255)%Z.

(** A returned sample whose three channels lie in [0, 1]. *)
Definition unit_sample (p : Q * Q * Q) : Prop :=
  let '(r, g, b) := p in
  (0 <= r /\ r <= 1 /\ 0 <= g /\ g <= 1 /\ 0 <= b /\ b <= 1)%Q.

End Ranges.

(** ** The letterbox of [_resize_to_fit] and the shapes of [process_image] *)

Module Layout.

Local Open Scope Z_scope.



End Layout.


(** * Properties *)

(** ** Facts about the NumPy primitives *)

Section NumpyFacts.

Local Open Scope R_scope.

Lemma Rleb_true_iff (x y : R) : Np.Rleb x y = true <-> x <= y.
Proof. unfold Np.Rleb. destruct (Rle_dec x y); split; intros; congruence || lra. Qed.

Lemma Rltb_true_iff (x y : R) : Np.Rltb x y = true <-> x < y.
Proof. unfold Np.Rltb. destruct (Rlt_dec x y); split; intros; congruence || lra. Qed.

Lemma power_pos_base (x y : R) : 0 < x -> Np.power x y = Rpower x y.
Proof.
  intros Hx. unfold Np.power.
  destruct (Req_dec_T x 0) as [E | _]; [lra | reflexivity].
Qed.

Lemma power_positive (x y : R) : 0 < x -> 0 < Np.power x y.
Proof.
  intros Hx. rewrite power_pos_base by assumption.
  unfold Rpower. apply exp_pos.
Qed.

Lemma power2_lt (a b : R) : a < b -> Np.power 2 a < Np.power 2 b.
Proof.
  intros Hab. rewrite !power_pos_base by lra.
  apply Rpower_lt; lra.
Qed.

Lemma power2_0 : Np.power 2 0 = 1.
Proof. rewrite power_pos_base by lra. apply Rpower_O; lra. Qed.

End NumpyFacts.

(** ** ZoneClassifier *)

Module ZoneFacts.
Import ZoneClassifier.

Local Open Scope R_scope.

Lemma stops_to_linear_lt (a b : Q) :
  (a < b)%Q -> stops_to_linear a < stops_to_linear b.
Proof.
  intros Hab. unfold stops_to_linear, GRAY18.
  apply Qlt_Rlt in Hab. apply power2_lt in Hab.
  pose proof (@power_positive 2 (Q2R a)). lra.
Qed.

Lemma stops_to_linear_Qeq (a b : Q) :
  (a == b)%Q -> stops_to_linear a = stops_to_linear b.
Proof. intros E. unfold stops_to_linear. now rewrite (Qeq_eqR _ _ E). Qed.

Lemma stops_to_linear_pos (a : Q) : 0 < stops_to_linear a.
Proof.
  unfold stops_to_linear, GRAY18.
  pose proof (@power_positive 2 (Q2R a)). lra.
Qed.

Lemma stops_to_linear_0 : stops_to_linear 0 = 0.18.
Proof.
  unfold stops_to_linear, GRAY18. replace (Q2R 0) with 0 by (unfold Q2R; simpl; lra).
  rewrite power2_0. lra.
Qed.

Lemma below_17_cases (k : nat) : (k < 17)%nat -> In k (seq 0 17).
Proof. intros H. apply in_seq. lia. Qed.

(** Case analysis on a position [H : k < 17] of the table. *)
Ltac index_cases H :=
  apply below_17_cases in H; simpl in H;
  repeat (destruct H as [<- | H]); [ .. | contradiction ].

(** The three branches of the loop produce, at every position, the two
    neighbouring entries of [BOUNDARY_STOPS]. *)
Lemma zone_stops_boundaries (idx : nat) (stops : Q) :
  nth_error STOPS_LIST idx = Some stops ->
  exists lo hi,
    zone_stops (Z.of_nat idx) stops = Some (lo, hi) /\
    (lo == nth idx BOUNDARY_STOPS 0)%Q /\
    (hi == nth (S idx) BOUNDARY_STOPS 0)%Q.
Proof.
  intros H.
  assert (Hlt : (idx < 17)%nat).
  { change 17%nat with (length STOPS_LIST). apply nth_error_Some. congruence. }
  index_cases Hlt;
    simpl in H; injection H as <-;
    eexists; eexists; (split; [ vm_compute; reflexivity | split; vm_compute; reflexivity ]).
Qed.

Lemma zone_values_boundaries (idx : nat) (stops : Q) :
  nth_error STOPS_LIST idx = Some stops ->
  zone_values (Z.of_nat idx) stops = Some (boundary idx, boundary (S idx)).
Proof.
  intros H. destruct (zone_stops_boundaries idx H) as (lo & hi & E & Hlo & Hhi).
  unfold zone_values. rewrite E. unfold boundary.
  now rewrite (stops_to_linear_Qeq Hlo), (stops_to_linear_Qeq Hhi).
Qed.

Lemma boundary_stops_increasing (k : nat) :
  (k < 17)%nat ->
  (nth k BOUNDARY_STOPS 0 < nth (S k) BOUNDARY_STOPS 0)%Q.
Proof.
  intros H. index_cases H; reflexivity.
Qed.

Lemma boundary_step (k : nat) : (k < 17)%nat -> boundary k < boundary (S k).
Proof.
  intros H. apply stops_to_linear_lt, boundary_stops_increasing, H.
Qed.

Lemma boundary_mono (i j : nat) :
  (i <= j)%nat -> (j <= 17)%nat -> boundary i <= boundary j.
Proof.
  induction 1 as [| j Hij IH]; intros Hj.
  - lra.
  - pose proof (boundary_step (k := j)). specialize (IH ltac:(lia)).
    specialize (H ltac:(lia)). lra.
Qed.

(** A luminance inside the outer boundaries falls between two neighbours. *)
Lemma boundary_locate (n : nat) (y : R) :
  (n <= 17)%nat -> boundary 0 <= y < boundary n ->
  exists k, (k < n)%nat /\ boundary k <= y < boundary (S k).
Proof.
  induction n as [| n IH]; intros Hn Hy.
  - lra.
  - destruct (Rlt_dec y (boundary n)) as [Hlt | Hge].
    + destruct IH as (k & Hk & Hin); [lia | lra |].
      exists k. split; [lia | exact Hin].
    + exists n. split; [lia | lra].
Qed.

Lemma boundary_interval_unique (i j : nat) (y : R) :
  (i < 17)%nat -> (j < 17)%nat ->
  boundary i <= y < boundary (S i) ->
  boundary j <= y < boundary (S j) ->
  i = j.
Proof.
  intros Hi Hj Hyi Hyj.
  destruct (Nat.lt_trichotomy i j) as [Hlt | [E | Hgt]]; [ | exact E | ]; exfalso.
  - pose proof (@boundary_mono (S i) j ltac:(lia) ltac:(lia)). lra.
  - pose proof (@boundary_mono (S j) i ltac:(lia) ltac:(lia)). lra.
Qed.

Lemma in_zone_iff (idx : nat) (y : R) :
  in_zone idx y <->
  (idx < 17)%nat /\ boundary idx <= y < boundary (S idx).
Proof.
  unfold in_zone. split.
  - intros (stops & lo & hi & Hn & Hv & Hy).
    rewrite (zone_values_boundaries idx Hn) in Hv. injection Hv as <- <-.
    split; [ | exact Hy ].
    change 17%nat with (length STOPS_LIST). apply nth_error_Some. congruence.
  - intros (Hlt & Hy).
    destruct (nth_error STOPS_LIST idx) as [stops |] eqn:Hn.
    + exists stops, (boundary idx), (boundary (S idx)).
      repeat split; try apply Hy. now apply zone_values_boundaries.
    + apply nth_error_None in Hn. simpl in Hn. lia.
Qed.

Lemma boundary_first : boundary 0 = GRAY18 * Np.power 2 (-20).
Proof.
  unfold boundary, stops_to_linear. simpl nth.
  replace (Q2R (-20)) with (-20) by (unfold Q2R; simpl; lra). reflexivity.
Qed.

Lemma boundary_last : boundary 17 = GRAY18 * Np.power 2 20.
Proof.
  unfold boundary, stops_to_linear. simpl nth.
  replace (Q2R 20) with 20 by (unfold Q2R; simpl; lra). reflexivity.
Qed.

Lemma display_color_defined (k : nat) :
  (k < 17)%nat ->
  Py.getitem color_list_display (Z.of_nat k)
  = Some (nth k color_list_display black).
Proof.
  intros H. index_cases H; reflexivity.
Qed.

Lemma zone_mask_true_iff (lo hi y : R) :
  zone_mask lo hi y = true <-> lo <= y < hi.
Proof.
  unfold zone_mask. rewrite andb_true_iff, Rleb_true_iff, Rltb_true_iff. tauto.
Qed.

(** The zone table is the list of neighbouring boundaries. *)
Lemma zone_table_of_suffix (l : list Q) (k : nat) :
  (forall i s, nth_error l i = Some s -> nth_error STOPS_LIST (k + i) = Some s) ->
  zone_table_of (Py.enumerate_from (Z.of_nat k) l)
  = Some (map (fun i => (boundary i, boundary (S i))) (seq k (length l))).
Proof.
  revert k. induction l as [| s l IH]; intros k Hl.
  - reflexivity.
  - cbn [Py.enumerate_from zone_table_of length seq map].
    rewrite zone_values_boundaries
      by (specialize (Hl 0%nat s eq_refl); now rewrite Nat.add_0_r in Hl).
    replace (Z.of_nat k + 1)%Z with (Z.of_nat (S k)) by lia.
    rewrite IH; [ reflexivity | ].
    intros i s' Hi. specialize (Hl (S i) s' Hi).
    now replace (S k + i)%nat with (k + S i)%nat by lia.
Qed.

Lemma zone_table_eq :
  zone_table = Some (map (fun i => (boundary i, boundary (S i))) (seq 0 17)).
Proof.
  unfold zone_table, Py.enumerate.
  apply (zone_table_of_suffix STOPS_LIST 0). intros i s H. exact H.
Qed.

(** What the loop leaves at one position, started at table position [k]. *)
Lemma zone_loop_px_suffix (l : list Q) (y : R) :
  forall (k : nat) (out : color),
    (forall i s, nth_error l i = Some s -> nth_error STOPS_LIST (k + i) = Some s) ->
    exists c,
      zone_loop_px (Py.enumerate_from (Z.of_nat k) l) y out = Some c /\
      ((forall i, (k <= i < k + length l)%nat ->
                  ~ boundary i <= y < boundary (S i)) -> c = out) /\
      (forall i, (k <= i < k + length l)%nat ->
                 boundary i <= y < boundary (S i) ->
                 c = nth i color_list_display black).
Proof.
  induction l as [| s l IH]; intros k out Hl.
  - exists out. cbn. repeat split; intros; lia || reflexivity.
  - assert (Hk : nth_error STOPS_LIST k = Some s).
    { specialize (Hl 0%nat s eq_refl). now rewrite Nat.add_0_r in Hl. }
    assert (Hk17 : (k < 17)%nat).
    { change 17%nat with (length STOPS_LIST). apply nth_error_Some. congruence. }
    assert (Hrest : forall i s', nth_error l i = Some s' ->
                                 nth_error STOPS_LIST (S k + i) = Some s').
    { intros i s' Hi. specialize (Hl (S i) s' Hi).
      now replace (S k + i)%nat with (k + S i)%nat by lia. }
    assert (Hlen : (S k + length l <= 17)%nat).
    { destruct l as [| s0 l0] using rev_ind; [ simpl; lia | ].
      rewrite length_app. simpl.
      assert (Hlast : nth_error (l0 ++ [s0]) (length l0) = Some s0).
      { rewrite nth_error_app2 by lia. now rewrite Nat.sub_diag. }
      apply Hrest in Hlast.
      assert (S k + length l0 < length STOPS_LIST)%nat
        by (apply nth_error_Some; congruence).
      simpl in H. lia. }
    cbn [Py.enumerate_from zone_loop_px].
    rewrite (zone_values_boundaries k Hk), (display_color_defined Hk17).
    replace (Z.of_nat k + 1)%Z with (Z.of_nat (S k)) by lia.
    set (out' := if zone_mask (boundary k) (boundary (S k)) y
                 then nth k color_list_display black else out).
    destruct (IH (S k) out' Hrest) as (c & Hc & Hnone & Hsome).
    exists c. split; [ exact Hc | split ].
    + intros Hno. rewrite Hnone.
      * subst out'.
        destruct (zone_mask (boundary k) (boundary (S k)) y) eqn:Hm; [ | reflexivity ].
        apply zone_mask_true_iff in Hm. exfalso. apply (Hno k); [ simpl; lia | exact Hm ].
      * intros i Hi. apply Hno. simpl. lia.
    + intros i Hi Hy. simpl in Hi.
      destruct (Nat.eq_dec i k) as [-> | Hne].
      * rewrite Hnone.
        -- subst out'. apply zone_mask_true_iff in Hy. now rewrite Hy.
        -- intros j Hj Hyj.
           assert (j = k) by (apply (@boundary_interval_unique j k y); lia || assumption).
           lia.
      * apply Hsome; [ lia | exact Hy ].
Qed.

Lemma zone_loop_px_total (y : R) :
  zone_loop_px (Py.enumerate STOPS_LIST) y black = Some (zone_color_px y).
Proof.
  unfold zone_color_px.
  destruct (@zone_loop_px_suffix STOPS_LIST y 0 black) as (c & Hc & _).
  - intros i s H. exact H.
  - unfold Py.enumerate. change 0%Z with (Z.of_nat 0). now rewrite Hc.
Qed.

Lemma zone_color_px_matched (y : R) (idx : nat) :
  in_zone idx y -> zone_color_px y = nth idx color_list_display black.
Proof.
  intros Hin. apply in_zone_iff in Hin. destruct Hin as (Hlt & Hy).
  unfold zone_color_px.
  destruct (@zone_loop_px_suffix STOPS_LIST y 0 black) as (c & Hc & _ & Hsome).
  - intros i s H. exact H.
  - unfold Py.enumerate. change 0%Z with (Z.of_nat 0). rewrite Hc.
    apply Hsome; [ simpl; lia | exact Hy ].
Qed.

Lemma zone_color_px_unmatched (y : R) :
  (forall idx, ~ in_zone idx y) -> zone_color_px y = black.
Proof.
  intros Hno. unfold zone_color_px.
  destruct (@zone_loop_px_suffix STOPS_LIST y 0 black) as (c & Hc & Hnone & _).
  - intros i s H. exact H.
  - unfold Py.enumerate. change 0%Z with (Z.of_nat 0). rewrite Hc.
    apply Hnone. intros i Hi Hy. apply (Hno i). apply in_zone_iff.
    split; [ simpl in Hi; lia | exact Hy ].
Qed.

(** Masked assignment, read position by position. *)
Lemma zip_with_map_map (A B C D : Type) (h : B -> C -> D)
      (f : A -> B) (g : A -> C) (l : list A) :
  Np.zip_with h (map f l) (map g l) = map (fun x => h (f x) (g x)) l.
Proof. induction l as [| x l IH]; simpl; [ reflexivity | now rewrite IH ]. Qed.

Lemma mask_assign_map2d (A B : Type) (m : A -> bool) (c : B) (f : A -> B)
      (a : Np.array2 A) :
  Np.mask_assign (Np.map2d m a) c (Np.map2d f a)
  = Np.map2d (fun x => if m x then c else f x) a.
Proof.
  unfold Np.mask_assign, Np.map2d.
  rewrite zip_with_map_map. apply map_ext. intros row.
  apply zip_with_map_map.
Qed.

(** The loop over the whole array agrees with its reading at one position. *)
Lemma zone_loop_pointwise (entries : list (Z * Q)) :
  forall (linear_y : Np.array2 R) (f g : R -> color),
    (forall y, zone_loop_px entries y (f y) = Some (g y)) ->
    zone_loop entries linear_y (Np.map2d f linear_y)
    = Some (Np.map2d g linear_y).
Proof.
  induction entries as [| [idx stops] rest IH]; intros Y f g Hpx.
  - cbn. f_equal. unfold Np.map2d. apply map_ext. intros row.
    apply map_ext. intros y. specialize (Hpx y). cbn in Hpx. congruence.
  - cbn [zone_loop]. pose proof (Hpx 0) as H0. cbn [zone_loop_px] in H0, Hpx.
    destruct (zone_values idx stops) as [[lo hi] |]; [ | discriminate ].
    destruct (Py.getitem color_list_display idx) as [c |]; [ | discriminate ].
    rewrite mask_assign_map2d. apply IH. exact Hpx.
Qed.

Lemma map_luminance_to_zones_eq (linear_y : Np.array2 R) :
  map_luminance_to_zones linear_y = Some (Np.map2d zone_color_px linear_y).
Proof.
  unfold map_luminance_to_zones.
  apply zone_loop_pointwise. intros y. apply zone_loop_px_total.
Qed.

Lemma Forall2_map2d (A B : Type) (P : A -> B -> Prop) (f : A -> B)
      (a : Np.array2 A) :
  (forall x, P x (f x)) -> Forall2 (Forall2 P) a (Np.map2d f a).
Proof.
  intros H. unfold Np.map2d.
  induction a as [| row a IH]; simpl; constructor; [ | exact IH ].
  induction row as [| x row IHr]; simpl; constructor; [ apply H | exact IHr ].
Qed.

(** Luminance zero is below the lowest boundary: no interval contains it. *)
Lemma zero_below_first_boundary : 0 < GRAY18 * Np.power 2 (-20).
Proof. rewrite <- boundary_first. apply stops_to_linear_pos. Qed.

Lemma no_zone_contains_zero (idx : nat) : ~ in_zone idx 0.
Proof.
  intros H. apply in_zone_iff in H. destruct H as (Hlt & Hlo & _).
  pose proof (@boundary_mono 0 idx ltac:(lia) ltac:(lia)).
  pose proof zero_below_first_boundary. rewrite <- boundary_first in *. lra.
Qed.

End ZoneFacts.

Section ZoneClaims.
Import ZoneClassifier ZoneFacts.
Local Open Scope R_scope.

Lemma Forall2_map2d_on (A B : Type) (D : A -> Prop) (P : A -> B -> Prop)
      (f : A -> B) (a : Np.array2 A) :
  (forall x, D x -> P x (f x)) ->
  Forall (Forall D) a -> Forall2 (Forall2 P) a (Np.map2d f a).
Proof.
  intros H. unfold Np.map2d.
  induction 1 as [| row a Hrow _ IH]; simpl; constructor; [ | exact IH ].
  induction Hrow as [| x row Hx _ IHr]; simpl; constructor; [ now apply H | exact IHr ].
Qed.

Lemma mid_gray_in_range :
  GRAY18 * Np.power 2 (-20) <= 0.18 < GRAY18 * Np.power 2 20.
Proof.
  rewrite <- boundary_first, <- boundary_last, <- stops_to_linear_0.
  unfold boundary. simpl nth. split.
  - apply Rlt_le, stops_to_linear_lt. reflexivity.
  - apply stops_to_linear_lt. reflexivity.
Qed.

(** C5.  The table computed by [map_luminance_to_zones] from the seventeen
    stop values has seventeen intervals [(low_i, high_i)] with
    [low_i < high_i] for every entry and [high_i = low_(i+1)] for every
    adjacent pair; the first [low] is taken at -20 stops and the last
    [high] at +20 stops. *)
Theorem zone_table_contiguous :
  STOPS_LIST = [-7; -6; -5; -4; -3; -2; -1; -0.5; 0; 0.5; 1; 2; 3; 4; 5; 6; 7]%Q /\
  exists tbl : list (R * R),
    zone_table = Some tbl /\
    length tbl = 17%nat /\
    (forall i lo hi, nth_error tbl i = Some (lo, hi) -> lo < hi) /\
    (forall i lo hi lo' hi',
        nth_error tbl i = Some (lo, hi) ->
        nth_error tbl (S i) = Some (lo', hi') -> hi = lo') /\
    (exists hi, nth_error tbl 0 = Some (GRAY18 * Np.power 2 (-20), hi)) /\
    (exists lo, nth_error tbl 16 = Some (lo, GRAY18 * Np.power 2 20)).
Proof.
  split; [ reflexivity | ].
  eexists. split; [ apply zone_table_eq | ].
  assert (Hnth : forall i lo hi,
             nth_error (map (fun i => (boundary i, boundary (S i))) (seq 0 17)) i
             = Some (lo, hi) ->
             (i < 17)%nat /\ lo = boundary i /\ hi = boundary (S i)).
  { intros i lo hi H.
    assert (Hi : (i < 17)%nat).
    { assert (nth_error (map (fun i => (boundary i, boundary (S i))) (seq 0 17)) i <> None)
        by congruence.
      apply nth_error_Some in H0. rewrite length_map, length_seq in H0. exact H0. }
    rewrite nth_error_map, nth_error_seq in H.
    destruct (Nat.ltb_spec i 17); [ | lia ].
    simpl in H. injection H as <- <-. auto. }
  split; [ now rewrite length_map, length_seq | ].
  split; [ | split; [ | split ] ].
  - intros i lo hi H. apply Hnth in H. destruct H as (Hi & -> & ->).
    now apply boundary_step.
  - intros i lo hi lo' hi' H H'.
    apply Hnth in H. apply Hnth in H'.
    destruct H as (_ & _ & ->). destruct H' as (_ & -> & _). reflexivity.
  - exists (boundary 1). cbn [seq map nth_error]. now rewrite boundary_first.
  - exists (boundary 16). cbn [seq map nth_error]. now rewrite boundary_last.
Qed.

(** C1, as stated, fails: luminance 0 is a non-negative value and none of
    the seventeen intervals contains it. *)
Lemma zone_coverage_fails_at_zero :
  0 <= 0 /\ ~ (exists idx, in_zone idx 0).
Proof.
  split; [ lra | ]. intros (idx & H). exact (no_zone_contains_zero H).
Qed.

(** C1, amended.  For every luminance array whose values lie between the
    outer boundaries, [0.18 * 2^-20 <= y < 0.18 * 2^20], exactly one of the
    seventeen half-open intervals contains each value, and the zone map
    holds exactly that zone's display colour at that position. *)
Theorem zone_coverage_in_range (linear_y : Np.array2 R) :
  Forall (Forall (fun y =>
            GRAY18 * Np.power 2 (-20) <= y < GRAY18 * Np.power 2 20)) linear_y ->
  exists out,
    map_luminance_to_zones linear_y = Some out /\
    Forall2 (Forall2 (fun y c =>
               exists idx,
                 in_zone idx y /\
                 (forall j, in_zone j y -> j = idx) /\
                 nth_error color_list_display idx = Some c)) linear_y out.
Proof.
  intros Hrange. eexists. split; [ apply map_luminance_to_zones_eq | ].
  apply Forall2_map2d_on with (2 := Hrange).
  intros y Hy. rewrite <- boundary_first, <- boundary_last in Hy.
  destruct (@boundary_locate 17 y ltac:(lia) Hy) as (k & Hk & Hin).
  assert (Hz : in_zone k y) by (apply in_zone_iff; auto).
  exists k. split; [ exact Hz | split ].
  - intros j Hj. apply in_zone_iff in Hj. destruct Hj as (Hj & Hyj).
    now apply (@boundary_interval_unique j k y).
  - rewrite (zone_color_px_matched Hz).
    apply nth_error_nth'. simpl. exact Hk.
Qed.

Lemma zone_coverage_in_range_witness :
  exists out,
    map_luminance_to_zones [[0.18]] = Some out /\
    Forall2 (Forall2 (fun y c =>
               exists idx,
                 in_zone idx y /\
                 (forall j, in_zone j y -> j = idx) /\
                 nth_error color_list_display idx = Some c)) [[0.18]] out.
Proof.
  apply (@zone_coverage_in_range [[0.18]]).
  constructor; [ constructor; [ apply mid_gray_in_range | constructor ] | constructor ].
Defined.

(** C9.  A position whose luminance no interval contains keeps the colour
    (0,0,0) of the zero-initialised output buffer; luminance 0 is such a
    value, since it lies below the lowest boundary [0.18 * 2^-20]. *)
Theorem unmatched_luminance_is_black :
  (0 < GRAY18 * Np.power 2 (-20) /\ forall idx, ~ in_zone idx 0) /\
  map_luminance_to_zones [[0]] = Some [[black]] /\
  forall linear_y : Np.array2 R,
  exists out,
    map_luminance_to_zones linear_y = Some out /\
    Forall2 (Forall2 (fun y c =>
               (forall idx, ~ in_zone idx y) -> c = black)) linear_y out.
Proof.
  split; [ split; [ apply zero_below_first_boundary | apply no_zone_contains_zero ] | ].
  split.
  - rewrite map_luminance_to_zones_eq. cbn.
    now rewrite (zone_color_px_unmatched (@no_zone_contains_zero)).
  - intros Y. eexists. split; [ apply map_luminance_to_zones_eq | ].
    apply Forall2_map2d. intros y. apply zone_color_px_unmatched.
Qed.

End ZoneClaims.


(** ** LogDecoder *)

Module DecoderFacts.
Import LogDecoder ZoneClassifier ZoneFacts ELZone.

Local Open Scope R_scope.

Lemma Rpower_10_3 : Rpower 10 3 = 1000.
Proof.
  replace 3 with (INR 3) by (simpl; lra).
  rewrite Rpower_pow by lra. lra.
Qed.

Lemma Rpower_10_4 : Rpower 10 4 = 10000.
Proof.
  replace 4 with (INR 4) by (simpl; lra).
  rewrite Rpower_pow by lra. lra.
Qed.

(** [2.74 ^ 9 < 10 ^ 4], read through the ninth root. *)
Lemma pow10_four_ninths : 2.74 < Rpower 10 (4 / 9).
Proof.
  destruct (Rlt_dec 2.74 (Rpower 10 (4 / 9))) as [H | H]; [ exact H | exfalso ].
  assert (Hle : Rpower 10 (4 / 9) <= 2.74) by lra.
  assert (Hpos : 0 < Rpower 10 (4 / 9)) by (unfold Rpower; apply exp_pos).
  assert (Hpow : Rpower 10 (4 / 9) ^ 9 <= 2.74 ^ 9) by (apply pow_incr; lra).
  rewrite <- Rpower_pow in Hpow by exact Hpos.
  rewrite Rpower_mult in Hpow.
  replace (4 / 9 * INR 9) with (INR 4) in Hpow by (simpl; lra).
  rewrite Rpower_pow in Hpow by lra.
  lra.
Qed.

Lemma power10_lt (a b : R) : a < b -> Np.power 10 a < Np.power 10 b.
Proof.
  intros Hab. rewrite !power_pos_base by lra. apply Rpower_lt; lra.
Qed.

Lemma power10_le (a b : R) : a <= b -> Np.power 10 a <= Np.power 10 b.
Proof.
  intros Hab. rewrite !power_pos_base by lra. apply Rle_Rpower; lra.
Qed.

(** The values [_log_decoding_logc4_accurate] can return: zero for a code
    value up to [c], and more than 1.5 above it. *)
Lemma logc4_accurate_range (x : R) :
  _log_decoding_logc4_accurate x = 0 \/ 1.5 < _log_decoding_logc4_accurate x.
Proof.
  unfold _log_decoding_logc4_accurate, Np.clip_low.
  destruct (Rgt_dec x 0.0851858618842153) as [Hgt | Hle].
  - right.
    assert (He : 4 / 9 < (x - 0.0562935137369496) / 0.0647954196341293) by lra.
    apply power10_lt in He. rewrite (@power_pos_base 10 (4 / 9)) in He by lra.
    pose proof pow10_four_ninths as H49.
    set (p := Np.power 10 ((x - 0.0562935137369496) / 0.0647954196341293)) in *.
    assert (Hlin : 1.5 < p - 0.0799017958419154 / 0.0647954196341293) by lra.
    rewrite Rmax_left by lra. exact Hlin.
  - left. rewrite Rmax_right; [ reflexivity | ]. lra.
Qed.

Lemma rgb_to_y_gray (v : R) : rgb_to_y_bt2020 (v, v, v) = v.
Proof. unfold rgb_to_y_bt2020. lra. Qed.

Lemma boundary_9_below_1 : boundary 9 < 1.
Proof.
  unfold boundary, stops_to_linear, GRAY18. simpl nth.
  assert (H : Np.power 2 (Q2R 0.25) < Np.power 2 1).
  { apply power2_lt. unfold Q2R. simpl. lra. }
  rewrite (@power_pos_base 2 1) in H by lra. rewrite Rpower_1 in H by lra. lra.
Qed.

Lemma boundary_16_below_24 : boundary 16 < 24.
Proof.
  unfold boundary, stops_to_linear, GRAY18. simpl nth.
  assert (H : Np.power 2 (Q2R 6.5) < Np.power 2 7).
  { apply power2_lt. unfold Q2R. simpl. lra. }
  rewrite (@power_pos_base 2 7) in H by lra.
  replace 7 with (INR 7) in H by (simpl; lra).
  rewrite Rpower_pow in H by lra. lra.
Qed.

Lemma boundary_17_above_10000 : 10000 < boundary 17.
Proof.
  rewrite boundary_last. unfold GRAY18.
  rewrite power_pos_base by lra.
  replace 20 with (INR 20) by (simpl; lra).
  rewrite Rpower_pow by lra. lra.
Qed.

(** The decoded value of the code value 0.2784. *)
Lemma logc4_accurate_at_mid_gray_code :
  998 < _log_decoding_logc4_accurate 0.2784 < 10000.
Proof.
  unfold _log_decoding_logc4_accurate, Np.clip_low.
  destruct (Rgt_dec 0.2784 0.0851858618842153) as [_ | Hn]; [ | lra ].
  assert (Hlo : 3 <= (0.2784 - 0.0562935137369496) / 0.0647954196341293) by lra.
  assert (Hhi : (0.2784 - 0.0562935137369496) / 0.0647954196341293 < 4) by lra.
  apply power10_le in Hlo. apply power10_lt in Hhi.
  rewrite (@power_pos_base 10 3), Rpower_10_3 in Hlo by lra.
  rewrite (@power_pos_base 10 4), Rpower_10_4 in Hhi by lra.
  set (p := Np.power 10 ((0.2784 - 0.0562935137369496) / 0.0647954196341293)) in *.
  rewrite Rmax_left by lra. lra.
Qed.

(** What the classifier does with scene-linear mid grey itself. *)
Lemma mid_gray_classifies_as_stop_0 :
  in_zone 8 (rgb_to_y_bt2020 (0.18, 0.18, 0.18)) /\
  nth_error STOPS_LIST 8 = Some 0%Q /\
  nth_error COLOR_LIST_8BIT 8 = Some (144, 140, 135)%Z /\
  zone_color_px (rgb_to_y_bt2020 (0.18, 0.18, 0.18))
  = nth 8 color_list_display black.
Proof.
  assert (Hin : in_zone 8 (rgb_to_y_bt2020 (0.18, 0.18, 0.18))).
  { rewrite rgb_to_y_gray. apply in_zone_iff. split; [ lia | ].
    rewrite <- stops_to_linear_0. unfold boundary. simpl nth. split.
    - apply Rlt_le, stops_to_linear_lt. reflexivity.
    - apply stops_to_linear_lt. reflexivity. }
  repeat split; try reflexivity; try apply Hin.
  now apply zone_color_px_matched.
Qed.

End DecoderFacts.

Section DecoderClaims.
Import LogDecoder ZoneClassifier ZoneFacts ELZone DecoderFacts.
Local Open Scope R_scope.

(** C4 on the code.  The LogC4 curve of this module, used whenever the
    [colour] package is absent, returns 0 or a value above 1.5 and never
    0.18: no code value is classified into the zone of stop 0.  The code
    value 0.2784, which encodes 18% grey in ARRI LogC4, decodes to a value
    near 2675 and is classified into the last zone (stop +7, palette entry
    [255,255,255]). *)
Theorem logc4_accurate_misses_mid_gray :
  (forall v : R,
      let lin := _log_decoding_logc4_accurate v in
      lin <> 0.18 /\ ~ in_zone 8 (rgb_to_y_bt2020 (lin, lin, lin))) /\
  (let v := 0.2784 in
   let lin := _log_decoding_logc4_accurate v in
   let self := fst (init env_without_colour "logc4") in
   in_zone 16 (rgb_to_y_bt2020 (lin, lin, lin)) /\
   nth_error STOPS_LIST 16 = Some 7%Q /\
   nth_error COLOR_LIST_8BIT 16 = Some (255, 255, 255)%Z /\
   create_el_zone_map self [[(v, v, v)]]
   = Some [[nth 16 color_list_display black]]).
Proof.
  split.
  - intros v lin. subst lin. rewrite rgb_to_y_gray.
    destruct (logc4_accurate_range v) as [H0 | Hbig]; split.
    + lra.
    + rewrite H0. apply no_zone_contains_zero.
    + lra.
    + intros Hin. apply in_zone_iff in Hin. destruct Hin as (_ & _ & Hhi).
      pose proof boundary_9_below_1. lra.
  - cbv zeta.
    assert (Hin : in_zone 16 (rgb_to_y_bt2020
                   (_log_decoding_logc4_accurate 0.2784,
                    _log_decoding_logc4_accurate 0.2784,
                    _log_decoding_logc4_accurate 0.2784))).
    { rewrite rgb_to_y_gray. apply in_zone_iff. split; [ lia | ].
      pose proof logc4_accurate_at_mid_gray_code.
      pose proof boundary_16_below_24. pose proof boundary_17_above_10000. lra. }
    split; [ exact Hin | ]. split; [ reflexivity | ]. split; [ reflexivity | ].
    unfold create_el_zone_map, to_unit_range_R, array_max_R. cbn [concat flat_map channels_R app fold_left].
    rewrite !(Rmax_left 0.2784 0.2784) by lra.
    destruct (Rgt_dec 0.2784 1.0) as [Hbad | _]; [ lra | ].
    rewrite map_luminance_to_zones_eq.
    cbn [init _get_decode_function String.eqb Ascii.eqb Bool.eqb fst HAS_COLOUR
         env_without_colour decode_image decode_func Np.map2d map per_channel].
    now rewrite (zone_color_px_matched Hin).
Qed.

(** C6.  With the "linear" selection no decode function is installed and
    the decode step of [create_el_zone_map] hands the array on unchanged:
    the linear frame used for classification is the input array, in shape
    and in every sample. *)
Theorem linear_decode_is_identity :
  forall (env : environment) (img_array : frame_R),
    fst (_get_decode_function env "linear") = None /\
    decode_image (fst (init env "linear")) img_array = img_array /\
    create_el_zone_map (fst (init env "linear")) img_array
    = match to_unit_range_R img_array with
      | Some a => map_luminance_to_zones (Np.map2d rgb_to_y_bt2020 a)
      | None => None
      end.
Proof.
  intros env img. repeat split.
Qed.

(** C7.  A selector outside the recognised names makes the constructor
    install [_log_decoding_fallback], that is [v |-> 2 ^ ((v - 0.5) * 14)],
    with one warning and no error, and the zone map of every non-empty
    frame is then produced. *)
Theorem unrecognized_format_falls_back
        (env : environment) (fmt : string) (image : frame_R) :
  ~ In fmt ["linear"; "logc4"; "slog3"; "apple_log"; "redlog3"]%string ->
  array_max_R image <> None ->
  decode_func (fst (init env fmt)) = Some _log_decoding_fallback /\
  (forall v, _log_decoding_fallback v = Np.power 2 ((v - 0.5) * 14)) /\
  snd (init env fmt)
  = [("Log format '" ++ fmt ++ "' not supported, using fallback")%string] /\
  exists out, create_el_zone_map (fst (init env fmt)) image = Some out.
Proof.
  intros Hfmt Hmax.
  assert (E : _get_decode_function env fmt
              = (Some _log_decoding_fallback,
                 [("Log format '" ++ fmt ++ "' not supported, using fallback")%string])).
  { unfold _get_decode_function.
    repeat match goal with
           | |- context [String.eqb fmt ?s] =>
               destruct (String.eqb_spec fmt s) as [-> | _];
               [ exfalso; apply Hfmt; simpl; tauto | ]
           end.
    reflexivity. }
  unfold init. rewrite E. cbn [fst snd decode_func].
  repeat split.
  unfold create_el_zone_map, to_unit_range_R.
  destruct (array_max_R image) as [m |]; [ | congruence ].
  destruct (Rgt_dec m 1.0); rewrite map_luminance_to_zones_eq; eexists; reflexivity.
Qed.

Lemma unrecognized_format_falls_back_witness :
  decode_func (fst (init env_without_colour "cineon"))
  = Some _log_decoding_fallback /\
  (forall v, _log_decoding_fallback v = Np.power 2 ((v - 0.5) * 14)) /\
  snd (init env_without_colour "cineon")
  = ["Log format 'cineon' not supported, using fallback"%string] /\
  exists out,
    create_el_zone_map (fst (init env_without_colour "cineon"))
                       [[(0.5, 0.5, 0.5)]] = Some out.
Proof.
  apply (@unrecognized_format_falls_back
           env_without_colour "cineon" [[(0.5, 0.5, 0.5)]]).
  - simpl. intros H. repeat (destruct H as [H | H]; [ discriminate H | ]). exact H.
  - discriminate.
Defined.

End DecoderClaims.


(** ** Facts about truncation, clipping, ranges and canvases *)

Module ArrayFacts.
Import Canvas Frame.

Local Open Scope Q_scope.

Lemma int_nonneg (q : Q) : 0 <= q -> Py.int q = Qfloor q.
Proof.
  intros H. destruct q as [n d]. unfold Py.int, Qfloor. simpl.
  apply Z.quot_div_nonneg; [ | lia ].
  unfold Qle in H. simpl in H. lia.
Qed.

Lemma Qfloor_unique (q : Q) (z : Z) :
  inject_Z z <= q -> q < inject_Z (z + 1) -> Qfloor q = z.
Proof.
  intros Hlo Hhi.
  apply Qfloor_resp_le in Hlo. rewrite Qfloor_Z in Hlo.
  pose proof (Qfloor_le q) as Hf.
  assert (Hlt : inject_Z (Qfloor q) < inject_Z (z + 1)) by lra.
  rewrite <- Zlt_Qlt in Hlt. lia.
Qed.

Lemma clipQ_bounds (x lo hi : Q) :
  lo <= hi -> lo <= Np.clipQ x lo hi /\ Np.clipQ x lo hi <= hi.
Proof.
  intros H. unfold Np.clipQ. split.
  - apply Q.min_glb; [ apply Q.le_max_r | exact H ].
  - apply Q.le_min_r.
Qed.

Lemma clipQ_inside (x lo hi : Q) :
  lo <= x -> x <= hi -> Np.clipQ x lo hi == x.
Proof.
  intros Hlo Hhi. unfold Np.clipQ.
  rewrite (Q.max_l x lo) by exact Hlo.
  apply Q.min_l. exact Hhi.
Qed.

Lemma int_clip_bounds (x : Q) (n : Z) :
  (0 <= n)%Z ->
  (0 <= Py.int (Np.clipQ x 0 (inject_Z n)) <= n)%Z.
Proof.
  intros Hn.
  assert (H0n : 0 <= inject_Z n) by (change 0 with (inject_Z 0); now rewrite <- Zle_Qle).
  destruct (clipQ_bounds x H0n) as [Hlo Hhi].
  rewrite int_nonneg by exact Hlo. split.
  - apply Qfloor_resp_le in Hlo. exact Hlo.
  - apply Qfloor_resp_le in Hhi. now rewrite Qfloor_Z in Hhi.
Qed.

Lemma Qltb_true_iff (x y : Q) : Np.Qltb x y = true <-> x < y.
Proof.
  unfold Np.Qltb. rewrite negb_true_iff, <- not_true_iff_false, Qle_bool_iff.
  split; [ apply Qnot_le_lt | apply Qlt_not_le ].
Qed.

(** [range(start, stop, step)] stays inside [[start, stop)]. *)
Lemma range_fuel_bounds (fuel : nat) :
  forall start stop step lo : Z,
    (lo <= start)%Z -> (0 < step)%Z ->
    Forall (fun i => (lo <= i < stop)%Z) (Py.range_fuel fuel start stop step).
Proof.
  induction fuel as [| k IH]; intros start stop step lo Hlo Hstep; simpl.
  - constructor.
  - destruct (Z.ltb_spec start stop) as [Hlt | _]; constructor.
    + lia.
    + apply IH; lia.
Qed.

Lemma sample_coords_bounds (n : Z) :
  Forall (fun i => (0 <= i < n)%Z) (VectorScope.sample_coords n).
Proof.
  unfold VectorScope.sample_coords, Py.range. apply range_fuel_bounds; lia.
Qed.

Lemma index_in_range (n i : Z) : (0 <= i < n)%Z -> Np.index n i = Some i.
Proof.
  intros H. unfold Np.index.
  destruct (Z.leb_spec 0 i); [ | lia ].
  destruct (Z.ltb_spec i n); [ reflexivity | lia ].
Qed.

(** Position-wise rewriting keeps lengths. *)
Lemma length_imap_from (A : Type) (f : nat -> A -> A) (l : list A) :
  forall k, length (imap_from k f l) = length l.
Proof. induction l as [| x l IH]; intros k; simpl; [ | rewrite IH ]; reflexivity. Qed.

Lemma length_imap (A : Type) (f : nat -> A -> A) (l : list A) :
  length (imap f l) = length l.
Proof. apply length_imap_from. Qed.



Lemma Forall_imap_from (A : Type) (P : A -> Prop) (f : nat -> A -> A)
      (l : list A) :
  (forall i x, P x -> P (f i x)) ->
  Forall P l -> forall k, Forall P (imap_from k f l).
Proof.
  intros Hf. induction 1 as [| x l Hx _ IH]; intros k; simpl; constructor; auto.
Qed.

(** Rows rewritten without changing their lengths keep the shape. *)
Lemma has_shape_imap (A : Type) (rows cols : Z) (a : Np.array2 A)
      (f : nat -> list A -> list A) :
  (forall i row, length (f i row) = length row) ->
  Np.has_shape rows cols a -> Np.has_shape rows cols (imap f a).
Proof.
  intros Hf [Hrows Hcols]. split.
  - now rewrite length_imap.
  - unfold imap. apply Forall_imap_from; [ | exact Hcols ].
    intros i row Hrow. now rewrite Hf.
Qed.

Lemma has_shape_map (A B : Type) (rows cols : Z) (a : Np.array2 A)
      (f : list A -> list B) :
  (forall row, length (f row) = length row) ->
  Np.has_shape rows cols a -> Np.has_shape rows cols (map f a).
Proof.
  intros Hf [Hrows Hcols]. split.
  - now rewrite length_map.
  - apply Forall_map. revert Hcols. apply Forall_impl.
    intros row Hrow. now rewrite Hf.
Qed.

Lemma has_shape_map2d (A B : Type) (rows cols : Z) (a : Np.array2 A)
      (f : A -> B) :
  Np.has_shape rows cols a -> Np.has_shape rows cols (Np.map2d f a).
Proof. apply has_shape_map. intros row. apply length_map. Qed.


Lemma update_px_shape (rows cols : Z) (a : canvas) (y x : Z)
      (f : rgb8 -> rgb8) :
  (0 <= y < rows)%Z -> (0 <= x < cols)%Z ->
  Np.has_shape rows cols a ->
  exists a', update_px rows cols a y x f = Some a' /\ Np.has_shape rows cols a'.
Proof.
  intros Hy Hx Ha. unfold update_px.
  rewrite (index_in_range Hy), (index_in_range Hx).
  eexists. split; [ reflexivity | ].
  apply has_shape_imap; [ | exact Ha ].
  intros i row. destruct (i =? Z.to_nat y)%nat; [ apply length_imap | reflexivity ].
Qed.





Lemma fetch_in_range (A : Type) (h w : Z) (a : Np.array2 A) (y x : Z) :
  Np.has_shape h w a -> (0 <= y < h)%Z -> (0 <= x < w)%Z ->
  exists v, fetch h w a y x = Some v.
Proof.
  intros [Hh Hw] Hy Hx. unfold fetch.
  rewrite (index_in_range Hy), (index_in_range Hx).
  destruct (nth_error a (Z.to_nat y)) as [row |] eqn:Hrow.
  - assert (Hlen : Z.of_nat (length row) = w).
    { rewrite Forall_forall in Hw. apply Hw. eapply nth_error_In, Hrow. }
    destruct (nth_error row (Z.to_nat x)) as [v |] eqn:Hv; [ now exists v | ].
    apply nth_error_None in Hv. lia.
  - apply nth_error_None in Hrow. lia.
Qed.

End ArrayFacts.


(** ** VectorScopeRenderer *)

Module VectorScopeFacts.
Import Canvas Frame VectorScope ArrayFacts.

Local Open Scope Q_scope.

(** Luma and chroma of a grey sample: the coefficients of U add up to
    0.00001, those of V to zero. *)
Lemma rgb_to_yuv_gray (g : Q) :
  let '(y, u, v) := rgb_to_yuv (g, g, g) in
  y == g /\ u == g * 0.00001 /\ v == 0.
Proof.
  unfold rgb_to_yuv. repeat split; ring.
Qed.

Lemma mark_position_bounds (size : Z * Z) (yuv : Q * Q * Q) (x y : Z) :
  (1 <= fst size)%Z -> (1 <= snd size)%Z ->
  mark_position size yuv = Some (x, y) ->
  (0 <= x <= fst size - 1)%Z /\ (0 <= y <= snd size - 1)%Z.
Proof.
  intros HW HH. destruct yuv as [[py pu] pv]. unfold mark_position.
  destruct (Np.Qltb 0.01 py); [ | discriminate ].
  intros E. injection E as <- <-.
  split; apply int_clip_bounds; lia.
Qed.

(** A mark inside the canvas is written without error. *)
Lemma plot_pixel_ok (size : Z * Z) (h w : Z) (yuv : Np.array2 (Q * Q * Q))
      (vs : canvas) (img_y img_x : Z) :
  (1 <= fst size)%Z -> (1 <= snd size)%Z ->
  Np.has_shape h w yuv -> (0 <= img_y < h)%Z -> (0 <= img_x < w)%Z ->
  Np.has_shape (snd size) (fst size) vs ->
  exists vs',
    plot_pixel size h w yuv (Some vs) img_y img_x = Some vs' /\
    Np.has_shape (snd size) (fst size) vs'.
Proof.
  intros HW HH Hyuv Hy Hx Hvs. unfold plot_pixel.
  destruct (fetch_in_range Hyuv Hy Hx) as [px ->].
  destruct (mark_position size px) as [[xc yc] |] eqn:Hm.
  - destruct (mark_position_bounds size px HW HH Hm) as [Hxc Hyc].
    apply update_px_shape; [ lia | lia | exact Hvs ].
  - exists vs. split; [ reflexivity | exact Hvs ].
Qed.

Lemma plot_row_ok (size : Z * Z) (h w : Z) (yuv : Np.array2 (Q * Q * Q))
      (img_y : Z) (xs : list Z) :
  (1 <= fst size)%Z -> (1 <= snd size)%Z ->
  Np.has_shape h w yuv -> (0 <= img_y < h)%Z ->
  Forall (fun i => (0 <= i < w)%Z) xs ->
  forall vs : canvas,
    Np.has_shape (snd size) (fst size) vs ->
    exists vs',
      fold_left (fun st img_x => plot_pixel size h w yuv st img_y img_x)
                xs (Some vs) = Some vs' /\
      Np.has_shape (snd size) (fst size) vs'.
Proof.
  intros HW HH Hyuv Hy. induction 1 as [| x xs Hx _ IH]; intros vs Hvs;
    cbn [fold_left].
  - exists vs. auto.
  - destruct (plot_pixel_ok size HW HH Hyuv Hy Hx Hvs) as (vs1 & -> & Hvs1).
    apply IH. exact Hvs1.
Qed.

Lemma plot_rows_ok (size : Z * Z) (h w : Z) (yuv : Np.array2 (Q * Q * Q))
      (xs ys : list Z) :
  (1 <= fst size)%Z -> (1 <= snd size)%Z ->
  Np.has_shape h w yuv ->
  Forall (fun i => (0 <= i < w)%Z) xs ->
  Forall (fun i => (0 <= i < h)%Z) ys ->
  forall vs : canvas,
    Np.has_shape (snd size) (fst size) vs ->
    exists vs',
      fold_left
        (fun st img_y =>
           fold_left (fun st' img_x => plot_pixel size h w yuv st' img_y img_x)
                     xs st)
        ys (Some vs) = Some vs' /\
      Np.has_shape (snd size) (fst size) vs'.
Proof.
  intros HW HH Hyuv Hxs. induction 1 as [| y ys Hy _ IH]; intros vs Hvs;
    cbn [fold_left].
  - exists vs. auto.
  - destruct (plot_row_ok size HW HH Hyuv Hy Hxs Hvs) as (vs1 & -> & Hvs1).
    apply IH. exact Hvs1.
Qed.

Lemma density_marks_all (P : option (Z * Z) -> Prop) (size : Z * Z)
      (log_image : frame) :
  P None ->
  (forall px, P (mark_position size px)) ->
  Forall P (density_marks size log_image).
Proof.
  intros Hnone Hsome. unfold density_marks.
  apply Forall_flat_map, Forall_forall. intros img_y _.
  apply Forall_map, Forall_forall. intros img_x _.
  destruct (fetch _ _ _ img_y img_x); auto.
Qed.

(** The mark of a grey sample above the threshold. *)
Lemma gray_mark_position (size : Z * Z) (g : Q) :
  (3 <= fst size)%Z -> (3 <= snd size)%Z ->
  0.01 < g -> g * inject_Z (scale size) <= 100000 ->
  mark_position size (rgb_to_yuv (g, g, g))
  = Some (center_x size, (center_y size - 1)%Z).
Proof.
  intros HW HH Hg Hscale.
  pose proof (rgb_to_yuv_gray g) as Hyuv.
  destruct (rgb_to_yuv (g, g, g)) as [[py pu] pv]. destruct Hyuv as (Ey & Eu & Ev).
  unfold mark_position.
  assert (Hlt : Np.Qltb 0.01 py = true) by (apply Qltb_true_iff; lra).
  rewrite Hlt.
  assert (Hsc : (1 <= scale size)%Z).
  { unfold scale. apply Z.div_le_lower_bound; lia. }
  assert (HscQ : 1 <= inject_Z (scale size))
    by (change 1 with (inject_Z 1); now rewrite <- Zle_Qle).
  assert (Hcx : (0 <= center_x size <= fst size - 1)%Z).
  { unfold center_x. split; [ apply Z.div_pos; lia | ].
    assert (fst size / 2 < fst size)%Z by (apply Z.div_lt; lia). lia. }
  assert (Hcy : (1 <= center_y size <= snd size - 1)%Z).
  { unfold center_y. split.
    - apply Z.div_le_lower_bound; lia.
    - assert (snd size / 2 < snd size)%Z by (apply Z.div_lt; lia). lia. }
  f_equal. f_equal.
  - set (xq := inject_Z (center_x size) + pv * inject_Z (scale size)).
    assert (Ex : xq == inject_Z (center_x size)) by (subst xq; rewrite Ev; ring).
    assert (Hx0 : 0 <= inject_Z (center_x size))
      by (change 0 with (inject_Z 0); rewrite <- Zle_Qle; lia).
    assert (Hx1 : inject_Z (center_x size) <= inject_Z (fst size - 1))
      by (rewrite <- Zle_Qle; lia).
    rewrite int_nonneg by (apply clipQ_bounds; lra).
    assert (Hc : Np.clipQ xq 0 (inject_Z (fst size - 1)) == xq)
      by (apply clipQ_inside; lra).
    rewrite (Qfloor_comp _ _ Hc), (Qfloor_comp _ _ Ex). apply Qfloor_Z.
  - set (yq := inject_Z (center_y size) - pu * inject_Z (scale size)).
    assert (Hy0 : inject_Z 1 <= inject_Z (center_y size))
      by (rewrite <- Zle_Qle; lia).
    assert (Hy1 : inject_Z (center_y size) <= inject_Z (snd size - 1))
      by (rewrite <- Zle_Qle; lia).
    change (inject_Z 1) with 1 in Hy0.
    assert (Hprod : 0 < pu * inject_Z (scale size)
                    /\ pu * inject_Z (scale size) <= 1).
    { rewrite Eu. split; nra. }
    rewrite int_nonneg by (apply clipQ_bounds; lra).
    assert (Hc : Np.clipQ yq 0 (inject_Z (snd size - 1)) == yq)
      by (apply clipQ_inside; subst yq; lra).
    rewrite (Qfloor_comp _ _ Hc).
    apply Qfloor_unique; subst yq.
    + unfold Z.sub. rewrite inject_Z_plus. change (inject_Z (- (1))) with (- (1)). lra.
    + replace (center_y size - 1 + 1)%Z with (center_y size) by lia. lra.
Qed.

Lemma fold_left_flat_map (A B C : Type) (f : A -> C -> A) (g : B -> list C)
      (l : list B) :
  forall a, fold_left f (flat_map g l) a
            = fold_left (fun a' x => fold_left f (g x) a') l a.
Proof.
  induction l as [| x l IH]; intros a; simpl; [ reflexivity | ].
  now rewrite fold_left_app, IH.
Qed.

Lemma fold_left_map (A B C : Type) (f : A -> C -> A) (g : B -> C) (l : list B) :
  forall a, fold_left f (map g l) a = fold_left (fun a' x => f a' (g x)) l a.
Proof. induction l as [| x l IH]; intros a; simpl; [ reflexivity | apply IH ]. Qed.

Lemma fold_left_ext_Forall (A B : Type) (P : B -> Prop) (f g : A -> B -> A)
      (l : list B) :
  (forall a x, P x -> f a x = g a x) ->
  Forall P l -> forall a, fold_left f l a = fold_left g l a.
Proof.
  intros Hfg. induction 1 as [| x l Hx _ IH]; intros a; simpl; [ reflexivity | ].
  now rewrite Hfg, IH.
Qed.

(** On a rectangular frame the loops write exactly the marks of
    [density_marks], in order. *)
Lemma plot_density_writes_marks (size : Z * Z) (log_image : frame)
      (vs : canvas) :
  Np.has_shape (height log_image) (width log_image) log_image ->
  plot_density size log_image vs
  = fold_left (write_mark size) (density_marks size log_image) (Some vs).
Proof.
  intros Hshape. unfold plot_density, density_marks.
  rewrite fold_left_flat_map.
  apply fold_left_ext_Forall with (2 := sample_coords_bounds (height log_image)).
  intros st img_y Hy. rewrite fold_left_map.
  apply fold_left_ext_Forall with (2 := sample_coords_bounds (width log_image)).
  intros st' img_x Hx.
  destruct (@fetch_in_range _ (height log_image) (width log_image)
              (Np.map2d rgb_to_yuv log_image) img_y img_x
              (has_shape_map2d rgb_to_yuv Hshape) Hy Hx) as [px Hpx].
  unfold plot_pixel, write_mark. rewrite Hpx.
  destruct st' as [c |]; [ | reflexivity ].
  destruct (mark_position size px) as [[xc yc] |]; reflexivity.
Qed.

Lemma fetch_Forall (A : Type) (P : A -> Prop) (h w : Z) (a : Np.array2 A)
      (y x : Z) (v : A) :
  Forall (Forall P) a -> fetch h w a y x = Some v -> P v.
Proof.
  intros Ha. unfold fetch.
  destruct (Np.index h y) as [i |]; [ | discriminate ].
  destruct (Np.index w x) as [j |]; [ | discriminate ].
  destruct (nth_error a (Z.to_nat i)) as [row |] eqn:Hrow; [ | discriminate ].
  intros Hv. apply nth_error_In in Hrow, Hv.
  rewrite Forall_forall in Ha. specialize (Ha row Hrow).
  rewrite Forall_forall in Ha. now apply Ha.
Qed.

End VectorScopeFacts.

Section VectorScopeClaims.
Import Canvas Frame VectorScope ArrayFacts VectorScopeFacts.
Local Open Scope Q_scope.

(** C10.  On a canvas of at least one row and one column, the coordinates
    of every mark are clamped into [0, width-1] x [0, height-1], whatever
    the chroma of the sample, and the plotting loops write all marks of a
    frame without an index error and without changing the canvas shape. *)
Theorem vectorscope_marks_inside_canvas
        (size : Z * Z) (log_image : frame) (vectorscope : canvas) :
  (1 <= fst size)%Z -> (1 <= snd size)%Z ->
  Np.has_shape (height log_image) (width log_image) log_image ->
  Np.has_shape (snd size) (fst size) vectorscope ->
  (forall (yuv : Q * Q * Q) (x y : Z),
      mark_position size yuv = Some (x, y) ->
      (0 <= x <= fst size - 1)%Z /\ (0 <= y <= snd size - 1)%Z) /\
  Forall (fun mark => forall x y, mark = Some (x, y) ->
                        (0 <= x <= fst size - 1)%Z /\ (0 <= y <= snd size - 1)%Z)
         (density_marks size log_image) /\
  exists plotted,
    plot_density size log_image vectorscope = Some plotted /\
    plot_density size log_image vectorscope
    = fold_left (write_mark size) (density_marks size log_image) (Some vectorscope) /\
    Np.has_shape (snd size) (fst size) plotted.
Proof.
  intros HW HH Himg Hvs. split; [ | split ].
  - intros yuv x y. now apply mark_position_bounds.
  - apply density_marks_all.
    + intros x y E. discriminate E.
    + intros px x y. now apply mark_position_bounds.
  - destruct (@plot_rows_ok size (height log_image) (width log_image)
                (Np.map2d rgb_to_yuv log_image)
                (sample_coords (width log_image))
                (sample_coords (height log_image)) HW HH
                (has_shape_map2d rgb_to_yuv Himg)
                (sample_coords_bounds _) (sample_coords_bounds _)
                vectorscope Hvs) as (plotted & Hplot & Hshape).
    exists plotted. split; [ exact Hplot | split; [ | exact Hshape ] ].
    now apply plot_density_writes_marks.
Qed.

Lemma vectorscope_marks_inside_canvas_witness :
  (forall (yuv : Q * Q * Q) (x y : Z),
      mark_position (4, 3)%Z yuv = Some (x, y) ->
      (0 <= x <= 4 - 1)%Z /\ (0 <= y <= 3 - 1)%Z) /\
  Forall (fun mark => forall x y, mark = Some (x, y) ->
                        (0 <= x <= 4 - 1)%Z /\ (0 <= y <= 3 - 1)%Z)
         (density_marks (4, 3)%Z [[(1, 0, 0); (0, 0, 1)]]) /\
  exists plotted,
    plot_density (4, 3)%Z [[(1, 0, 0); (0, 0, 1)]]
                 (repeat (repeat (0, 0, 0)%Z 4) 3) = Some plotted /\
    plot_density (4, 3)%Z [[(1, 0, 0); (0, 0, 1)]]
                 (repeat (repeat (0, 0, 0)%Z 4) 3)
    = fold_left (write_mark (4, 3)%Z)
                (density_marks (4, 3)%Z [[(1, 0, 0); (0, 0, 1)]])
                (Some (repeat (repeat (0, 0, 0)%Z 4) 3)) /\
    Np.has_shape 3 4 plotted.
Proof.
  apply (@vectorscope_marks_inside_canvas
           (4, 3)%Z [[(1, 0, 0); (0, 0, 1)]] (repeat (repeat (0, 0, 0)%Z 4) 3)).
  - simpl. lia.
  - simpl. lia.
  - split; [ reflexivity | repeat constructor ].
  - split; [ reflexivity | repeat constructor ].
Defined.

(** C2 on the code.  On the default 480 x 540 canvas the marks of a
    uniformly grey frame (R = G = B = 0.5) land at (240, 269), one row
    above the centre (240, 270), which stays black: the U coefficients add
    up to 0.00001 instead of zero and the row coordinate is truncated. *)
Lemma gray_mark_misses_center :
  let size := (480, 540)%Z in
  let gray := (0.5, 0.5, 0.5) in
  let image := [[gray; gray]; [gray; gray]] in
  to_unit_range image = Some image /\
  (center_x size, center_y size) = (240, 270)%Z /\
  density_marks size image
  = [Some (240, 269); Some (240, 269); Some (240, 269); Some (240, 269)]%Z /\
  match zeros (snd size) (fst size) with
  | Some vectorscope =>
      match plot_density size image vectorscope with
      | Some plotted =>
          get plotted 269 240 = Some (255, 255, 255)%Z /\
          get plotted 270 240 = Some (0, 0, 0)%Z
      | None => False
      end
  | None => False
  end.
Proof.
  vm_compute. repeat split; reflexivity.
Qed.

(** The same for every grey level and canvas: for a frame that is
    uniformly grey, [R = G = B = g] with [g] above the 0.01 floor, V is zero
    and U is [0.00001 * g]; on a canvas of at least 3 x 3 with
    [g * scale <= 100000] every density mark lands in column [center_x] and
    in row [center_y - 1]. *)
Theorem gray_marks_one_row_above_center
        (size : Z * Z) (g : Q) (log_image : frame) :
  (3 <= fst size)%Z -> (3 <= snd size)%Z ->
  0.01 < g -> g * inject_Z (scale size) <= 100000 ->
  Forall (Forall (fun p => p = (g, g, g))) log_image ->
  Np.has_shape (height log_image) (width log_image) log_image ->
  (let '(_, u, v) := rgb_to_yuv (g, g, g) in u == g * 0.00001 /\ v == 0) /\
  Forall (fun mark => mark = Some (center_x size, (center_y size - 1)%Z))
         (density_marks size log_image).
Proof.
  intros HW HH Hg Hscale Hgray Hshape. split.
  - pose proof (rgb_to_yuv_gray g) as H.
    destruct (rgb_to_yuv (g, g, g)) as [[y u] v]. tauto.
  - unfold density_marks.
    apply Forall_flat_map. 
    eapply Forall_impl; [ | apply (sample_coords_bounds (height log_image)) ].
    intros img_y Hy. apply Forall_map.
    eapply Forall_impl; [ | apply (sample_coords_bounds (width log_image)) ].
    intros img_x Hx.
    destruct (@fetch_in_range _ (height log_image) (width log_image)
                (Np.map2d rgb_to_yuv log_image) img_y img_x
                (has_shape_map2d rgb_to_yuv Hshape) Hy Hx) as [px Hpx].
    rewrite Hpx.
    assert (Epx : px = rgb_to_yuv (g, g, g)).
    { apply (@fetch_Forall _ (fun q => q = rgb_to_yuv (g, g, g)) _ _ _ _ _ _)
        with (2 := Hpx).
      unfold Np.map2d. apply Forall_map.
      eapply Forall_impl; [ | exact Hgray ].
      intros row Hrow. apply Forall_map.
      eapply Forall_impl; [ | exact Hrow ].
      intros p ->. reflexivity. }
    rewrite Epx. now apply gray_mark_position.
Qed.

Lemma gray_marks_one_row_above_center_witness :
  (let '(_, u, v) := rgb_to_yuv (0.5, 0.5, 0.5) in u == 0.5 * 0.00001 /\ v == 0) /\
  Forall (fun mark => mark = Some (center_x (480, 540)%Z,
                                   (center_y (480, 540)%Z - 1)%Z))
         (density_marks (480, 540)%Z
                        [[(0.5, 0.5, 0.5); (0.5, 0.5, 0.5)];
                         [(0.5, 0.5, 0.5); (0.5, 0.5, 0.5)]]).
Proof.
  apply (@gray_marks_one_row_above_center
           (480, 540)%Z 0.5
           [[(0.5, 0.5, 0.5); (0.5, 0.5, 0.5)];
            [(0.5, 0.5, 0.5); (0.5, 0.5, 0.5)]]).
  - simpl. lia.
  - simpl. lia.
  - reflexivity.
  - vm_compute. discriminate.
  - repeat constructor.
  - split; [ reflexivity | repeat constructor ].
Defined.

End VectorScopeClaims.


(** ** Compositor *)

Module CompositorFacts.
Import Compositor ArrayFacts.

Local Open Scope Z_scope.

(** Truncating [h * (target_w / w)] is the integer quotient. *)
Lemma int_scaled (h w target_w : Z) :
  0 < w -> 0 <= h -> 0 <= target_w ->
  Py.int (inject_Z h * (inject_Z target_w / inject_Z w))%Q = (h * target_w) / w.
Proof.
  intros Hw Hh Ht. destruct w as [| p | p]; try lia.
  unfold Py.int, Qdiv, Qinv, Qmult, inject_Z. simpl Qnum. simpl Qden.
  rewrite Z.quot_div_nonneg by lia.
  f_equal; lia.
Qed.



Lemma slice_length_inside (n a b : Z) :
  0 <= a -> a <= b -> b <= n -> Py.slice_length n a b = b - a.
Proof.
  intros Ha Hab Hb. unfold Py.slice_length, Py.slice_index.
  destruct (Z.ltb_spec b 0); destruct (Z.ltb_spec a 0); lia.
Qed.



End CompositorFacts.

Section CompositorClaims.
Import Compositor ArrayFacts CompositorFacts.
Local Open Scope Z_scope.




End CompositorClaims.


(** ** WaveformRenderer *)

Module WaveformFacts.
Import Canvas Frame Waveform ArrayFacts.

Local Open Scope Z_scope.


Lemma inject_Z_nonneg (z : Z) : 0 <= z -> (0 <= inject_Z z)%Q.
Proof. intros H. change 0%Q with (inject_Z 0). now rewrite <- Zle_Qle. Qed.



(** ** Ranges, strides and columns *)










(** ** The trace *)



Section TraceRows.

(** [Touched y]: rows the trace may write to. *)
Variable size : Z * Z.
Variable Touched : Z -> Prop.
Hypothesis Hcols : 0 <= fst size.
Hypothesis Hrows : 1 <= snd size.


Variable Level : Q -> Prop.
Hypothesis Hlevel : forall luma, Level luma -> Touched (y_position size luma).



End TraceRows.

(** ** The grid *)

Lemma tick_column_nonneg (size : Z * Z) (i : Z) :
  0 <= fst size -> 0 <= i -> 0 <= tick_column size i.
Proof.
  intros HW Hi. unfold tick_column.
  assert (Hq : (0 <= inject_Z (fst size * i) / 8)%Q).
  { apply Qle_shift_div_l; [ reflexivity | ].
    pose proof (@inject_Z_nonneg (fst size * i) ltac:(nia)). lra. }
  rewrite int_nonneg by exact Hq.
  apply Qfloor_resp_le in Hq. exact Hq.
Qed.






(** ** Input conversion *)







(** ** The all-black frame *)







End WaveformFacts.

Section WaveformClaims.
Import Canvas Frame Waveform ArrayFacts WaveformFacts.
Local Open Scope Z_scope.




End WaveformClaims.


(** * Further properties of the module *)

(** ** Zone map: shape, colours, ordering *)

Module ZoneMapFacts.
Import ZoneClassifier ZoneFacts.

Local Open Scope R_scope.

Lemma zone_color_px_cases (y : R) :
  (exists idx, in_zone idx y /\ zone_color_px y = nth idx color_list_display black)
  \/ ((forall idx, ~ in_zone idx y) /\ zone_color_px y = black).
Proof.
  destruct (Rle_dec (boundary 0) y) as [Hlo | Hlo];
    [ destruct (Rlt_dec y (boundary 17)) as [Hhi | Hhi] | ].
  - left. destruct (@boundary_locate 17 y ltac:(lia) (conj Hlo Hhi)) as (k & Hk & Hin).
    assert (Hz : in_zone k y) by (apply in_zone_iff; auto).
    exists k. split; [ exact Hz | now apply zone_color_px_matched ].
  - right.
    assert (Hno : forall idx, ~ in_zone idx y).
    { intros idx Hz. apply in_zone_iff in Hz. destruct Hz as (Hlt & _ & Hup).
      pose proof (@boundary_mono (S idx) 17 ltac:(lia) ltac:(lia)). lra. }
    split; [ exact Hno | now apply zone_color_px_unmatched ].
  - right.
    assert (Hno : forall idx, ~ in_zone idx y).
    { intros idx Hz. apply in_zone_iff in Hz. destruct Hz as (Hlt & Hdn & _).
      pose proof (@boundary_mono 0 idx ltac:(lia) ltac:(lia)). lra. }
    split; [ exact Hno | now apply zone_color_px_unmatched ].
Qed.

Lemma in_zone_below_17 (idx : nat) (y : R) : in_zone idx y -> (idx < 17)%nat.
Proof. intros H. now apply in_zone_iff in H. Qed.

Lemma rpower_one_base (y : R) : Rpower 1 y = 1.
Proof. unfold Rpower. rewrite ln_1, Rmult_0_r. apply exp_0. Qed.

Lemma rpower_below_one (a b : R) : 0 < a < 1 -> 0 < b -> 0 < Rpower a b < 1.
Proof.
  intros Ha Hb. split; [ unfold Rpower; apply exp_pos | ].
  rewrite <- (rpower_one_base b). apply Rlt_Rpower_l; lra.
Qed.

(** The display encoding undoes the 2.4 power of the sRGB curve. *)
Lemma display_channel_affine (x : R) :
  0.04045 < x ->
  Np.power (_srgb_eotf x) (1 / 2.4) = (x + 0.055) / 1.055.
Proof.
  intros Hx. unfold _srgb_eotf.
  destruct (Rle_dec x 0.04045) as [Hle | _]; [ lra | ].
  assert (Hbase : 0 < (x + 0.055) / 1.055) by (apply Rdiv_lt_0_compat; lra).
  rewrite (power_pos_base _ Hbase).
  assert (Hpos : 0 < Rpower ((x + 0.055) / 1.055) 2.4) by (unfold Rpower; apply exp_pos).
  rewrite (power_pos_base _ Hpos).
  rewrite Rpower_mult.
  replace (2.4 * (1 / 2.4)) with 1 by lra.
  apply Rpower_1. exact Hbase.
Qed.

Lemma display_channel_bounds (x : R) :
  0 <= x <= 1 -> 0 <= Np.power (_srgb_eotf x) (1 / 2.4) <= 1.
Proof.
  intros Hx. destruct (Rle_dec x 0.04045) as [Hle | Hgt].
  - unfold _srgb_eotf. destruct (Rle_dec x 0.04045) as [_ | Hn]; [ | lra ].
    unfold Np.power.
    destruct (Req_dec_T (x / 12.92) 0) as [_ | Hnz].
    + destruct (Req_dec_T (1 / 2.4) 0); lra.
    + assert (Hrange : 0 < x / 12.92 < 1) by lra.
      pose proof (@rpower_below_one (x / 12.92) (1 / 2.4) Hrange ltac:(lra)). lra.
  - rewrite display_channel_affine by lra. lra.
Qed.

End ZoneMapFacts.

Section ZoneMapProperties.
Import ZoneClassifier ZoneFacts ZoneMapFacts.
Local Open Scope R_scope.

(** The zone map of any luminance array is produced without error, has the
    shape of the array, and holds at every position either black or one of
    the seventeen display colours. *)
Theorem zone_map_shape_and_palette (linear_y : Np.array2 R) :
  exists out,
    map_luminance_to_zones linear_y = Some out /\
    Forall2 (fun row out_row => length out_row = length row) linear_y out /\
    Forall (Forall (fun c => In c (black :: color_list_display))) out.
Proof.
  exists (Np.map2d zone_color_px linear_y).
  split; [ apply map_luminance_to_zones_eq | split ].
  - unfold Np.map2d. induction linear_y as [| row rest IH]; simpl; constructor.
    + apply length_map.
    + exact IH.
  - unfold Np.map2d. apply Forall_map, Forall_forall. intros row _.
    apply Forall_map, Forall_forall. intros y _.
    destruct (zone_color_px_cases y) as [(idx & Hz & ->) | (_ & ->)].
    + right. apply nth_In. apply in_zone_below_17 in Hz. exact Hz.
    + now left.
Qed.

(** The nominal luminance [0.18 * 2^stop] of every entry of the stop table
    lies in the interval of its own zone. *)
Theorem nominal_stop_in_own_zone (idx : nat) (stops : Q) :
  nth_error STOPS_LIST idx = Some stops ->
  in_zone idx (GRAY18 * Np.power 2 (Q2R stops)).
Proof.
  intros H.
  assert (Hlt : (idx < 17)%nat).
  { change 17%nat with (length STOPS_LIST). apply nth_error_Some. congruence. }
  apply in_zone_iff. split; [ exact Hlt | ].
  change (GRAY18 * Np.power 2 (Q2R stops)) with (stops_to_linear stops).
  unfold boundary.
  index_cases Hlt; simpl in H; injection H as <-; simpl nth;
    (split; [ apply Rlt_le | ]; apply stops_to_linear_lt; reflexivity).
Qed.

Lemma nominal_stop_in_own_zone_witness :
  in_zone 8 (GRAY18 * Np.power 2 (Q2R 0)).
Proof.
  apply (@nominal_stop_in_own_zone 8 0%Q). reflexivity.
Defined.

(** Classification is monotone: a luminance that is not smaller never
    falls into an earlier zone of the table. *)
Theorem zone_index_monotone (i j : nat) (y1 y2 : R) :
  in_zone i y1 -> in_zone j y2 -> y1 <= y2 -> (i <= j)%nat.
Proof.
  intros Hi Hj Hle.
  apply in_zone_iff in Hi. apply in_zone_iff in Hj.
  destruct Hi as (Hi17 & Hilo & _). destruct Hj as (Hj17 & _ & Hjhi).
  destruct (Nat.le_gt_cases i j) as [H | H]; [ exact H | exfalso ].
  pose proof (@boundary_mono (S j) i ltac:(lia) ltac:(lia)). lra.
Qed.

Lemma zone_index_monotone_witness :
  in_zone 0 (stops_to_linear (-7)) /\ in_zone 8 (stops_to_linear 0) /\
  stops_to_linear (-7) <= stops_to_linear 0 /\ (0 <= 8)%nat.
Proof.
  assert (Hz0 : in_zone 0 (stops_to_linear (-7))).
  { apply in_zone_iff. split; [ lia | ]. unfold boundary. simpl nth. split.
    - apply Rlt_le, stops_to_linear_lt. reflexivity.
    - apply stops_to_linear_lt. reflexivity. }
  assert (Hz8 : in_zone 8 (stops_to_linear 0)).
  { apply in_zone_iff. split; [ lia | ]. unfold boundary. simpl nth. split.
    - apply Rlt_le, stops_to_linear_lt. reflexivity.
    - apply stops_to_linear_lt. reflexivity. }
  assert (Hle : stops_to_linear (-7) <= stops_to_linear 0)
    by (apply Rlt_le, stops_to_linear_lt; reflexivity).
  repeat split; try assumption.
  exact (@zone_index_monotone 0 8 _ _ Hz0 Hz8 Hle).
Defined.

(** Every channel of every display colour lies in [0, 1]; a palette value
    of at least 11 is encoded affinely, [(c / 255 + 0.055) / 1.055], because
    the power [1 / 2.4] undoes the power 2.4 of the sRGB curve. *)
Theorem display_colors_unit_range :
  Forall (fun c : color =>
            let '(r, g, b) := c in
            0 <= r <= 1 /\ 0 <= g <= 1 /\ 0 <= b <= 1) color_list_display /\
  forall c : Z,
    (11 <= c <= 255)%Z ->
    Np.power (_srgb_eotf (IZR c / 255)) (1 / 2.4) = (IZR c / 255 + 0.055) / 1.055.
Proof.
  split.
  - unfold color_list_display, color_list_linear, color_list_unit.
    rewrite !map_map. apply Forall_map.
    assert (Hpal : Forall (fun c : Z * Z * Z =>
                             let '(r, g, b) := c in
                             (0 <= r <= 255 /\ 0 <= g <= 255 /\ 0 <= b <= 255)%Z)
                          COLOR_LIST_8BIT).
    { unfold COLOR_LIST_8BIT. repeat constructor; lia. }
    eapply Forall_impl; [ | exact Hpal ].
    intros [[r g] b] (Hr & Hg & Hb). cbn [per_channel].
    assert (Hunit : forall c : Z, (0 <= c <= 255)%Z -> 0 <= IZR c / 255 <= 1).
    { intros c [H0 H1]. apply IZR_le in H0, H1. lra. }
    repeat split; apply display_channel_bounds; apply Hunit; assumption.
  - intros c [Hlo Hhi]. apply display_channel_affine.
    apply IZR_le in Hlo. lra.
Qed.

End ZoneMapProperties.


(** ** Decoding curves and their selection *)

Module CurveFacts.
Import LogDecoder ZoneClassifier ZoneFacts DecoderFacts ELZone.

Local Open Scope R_scope.

Lemma power2_le (a b : R) : a <= b -> Np.power 2 a <= Np.power 2 b.
Proof. intros H. rewrite !power_pos_base by lra. apply Rle_Rpower; lra. Qed.

Lemma power2_1 : Np.power 2 1 = 2.
Proof. rewrite power_pos_base by lra. apply Rpower_1. lra. Qed.

Lemma power10_0 : Np.power 10 0 = 1.
Proof. rewrite power_pos_base by lra. apply Rpower_O. lra. Qed.

Lemma power_add (x a b : R) :
  0 < x -> Np.power x (a + b) = Np.power x a * Np.power x b.
Proof. intros Hx. rewrite !power_pos_base by exact Hx. apply Rpower_plus. Qed.

(** [10 ^ (6/5) < 16], since [10 ^ 6 < 16 ^ 5]. *)
Lemma pow10_six_fifths : Rpower 10 (6 / 5) < 16.
Proof.
  destruct (Rlt_dec (Rpower 10 (6 / 5)) 16) as [H | H]; [ exact H | exfalso ].
  assert (Hge : 16 <= Rpower 10 (6 / 5)) by lra.
  assert (Hpow : 16 ^ 5 <= Rpower 10 (6 / 5) ^ 5) by (apply pow_incr; lra).
  assert (Hpos : 0 < Rpower 10 (6 / 5)) by (unfold Rpower; apply exp_pos).
  rewrite <- (Rpower_pow 5 (Rpower 10 (6 / 5))) in Hpow by exact Hpos.
  rewrite Rpower_mult in Hpow.
  replace (6 / 5 * INR 5) with (INR 6) in Hpow by (simpl; lra).
  rewrite Rpower_pow in Hpow by lra. lra.
Qed.

(** [10 ^ (-1/2) < 0.32], since [0.1 < 0.32 ^ 2]. *)
Lemma pow10_minus_half : Rpower 10 (- (1 / 2)) < 0.32.
Proof.
  destruct (Rlt_dec (Rpower 10 (- (1 / 2))) 0.32) as [H | H]; [ exact H | exfalso ].
  assert (Hge : 0.32 <= Rpower 10 (- (1 / 2))) by lra.
  assert (Hpow : 0.32 ^ 2 <= Rpower 10 (- (1 / 2)) ^ 2) by (apply pow_incr; lra).
  assert (Hpos : 0 < Rpower 10 (- (1 / 2))) by (unfold Rpower; apply exp_pos).
  rewrite <- (Rpower_pow 2 (Rpower 10 (- (1 / 2)))) in Hpow by exact Hpos.
  rewrite Rpower_mult in Hpow.
  replace (- (1 / 2) * INR 2) with (- (1)) in Hpow by (simpl; lra).
  rewrite Rpower_Ropp, Rpower_1 in Hpow by lra. lra.
Qed.

(** [0.0873 < 2 ^ (-7/2)], since [0.0873 ^ 2 < 1 / 128]. *)
Lemma pow2_minus_seven_halves : 0.0873 < Rpower 2 (- (7 / 2)).
Proof.
  destruct (Rlt_dec 0.0873 (Rpower 2 (- (7 / 2)))) as [H | H]; [ exact H | exfalso ].
  assert (Hle : Rpower 2 (- (7 / 2)) <= 0.0873) by lra.
  assert (Hpos : 0 < Rpower 2 (- (7 / 2))) by (unfold Rpower; apply exp_pos).
  assert (Hpow : Rpower 2 (- (7 / 2)) ^ 2 <= 0.0873 ^ 2) by (apply pow_incr; lra).
  rewrite <- (Rpower_pow 2 (Rpower 2 (- (7 / 2)))) in Hpow by exact Hpos.
  rewrite Rpower_mult in Hpow.
  replace (- (7 / 2) * INR 2) with (- INR 7) in Hpow by (simpl; lra).
  rewrite Rpower_Ropp, Rpower_pow in Hpow by lra. lra.
Qed.

Lemma boundary_4_above : 0.0157 < boundary 4.
Proof.
  unfold boundary, stops_to_linear, GRAY18. simpl nth.
  rewrite power_pos_base by lra.
  replace (Q2R (-3.5)) with (- (7 / 2)) by (unfold Q2R; simpl; lra).
  pose proof pow2_minus_seven_halves. lra.
Qed.

Lemma Rmax_scale (x y k : R) : 0 < k -> Rmax (x / k) (y / k) = Rmax x y / k.
Proof.
  intros Hk. unfold Rmax.
  assert (Hinv : 0 < / k) by now apply Rinv_0_lt_compat.
  destruct (Rle_dec (x / k) (y / k)) as [H1 | H1];
    destruct (Rle_dec x y) as [H2 | H2]; try reflexivity; exfalso;
    unfold Rdiv in *; nra.
Qed.

Lemma fold_Rmax_scale (k : R) (l : list R) :
  0 < k ->
  forall x, fold_left Rmax (map (fun v => v / k) l) (x / k)
            = fold_left Rmax l x / k.
Proof.
  intros Hk. induction l as [| a l IH]; intros x; simpl; [ reflexivity | ].
  rewrite Rmax_scale by exact Hk. apply IH.
Qed.

Lemma channels_map2d (f : R -> R) (img : frame_R) :
  flat_map channels_R (concat (Np.map2d (per_channel f) img))
  = map f (flat_map channels_R (concat img)).
Proof.
  unfold Np.map2d. rewrite <- concat_map.
  induction (concat img) as [| [[r g] b] l IH]; simpl; [ reflexivity | ].
  now rewrite IH.
Qed.

Lemma array_max_scaled (k : R) (img : frame_R) (m : R) :
  0 < k -> array_max_R img = Some m ->
  array_max_R (Np.map2d (per_channel (fun x => x / k)) img) = Some (m / k).
Proof.
  intros Hk. unfold array_max_R. rewrite channels_map2d.
  destruct (flat_map channels_R (concat img)) as [| x rest]; [ discriminate | ].
  intros E. injection E as <-. simpl. now rewrite fold_Rmax_scale.
Qed.

End CurveFacts.

Section CurveProperties.
Import LogDecoder ZoneClassifier ZoneFacts DecoderFacts ELZone CurveFacts.
Local Open Scope R_scope.

(** The module's own LogC4 curve never returns a negative value, is zero
    up to the code value [c], jumps above 1.5 right after it, and never
    decreases. *)
Theorem logc4_accurate_shape :
  (forall x, 0 <= _log_decoding_logc4_accurate x) /\
  (forall x, x <= 0.0851858618842153 -> _log_decoding_logc4_accurate x = 0) /\
  (forall x, 0.0851858618842153 < x -> 1.5 < _log_decoding_logc4_accurate x) /\
  (forall x y, x <= y ->
               _log_decoding_logc4_accurate x <= _log_decoding_logc4_accurate y).
Proof.
  assert (Hnonneg : forall x, 0 <= _log_decoding_logc4_accurate x).
  { intros x. unfold _log_decoding_logc4_accurate, Np.clip_low. apply Rmax_r. }
  assert (Hzero : forall x, x <= 0.0851858618842153 ->
                            _log_decoding_logc4_accurate x = 0).
  { intros x Hx. unfold _log_decoding_logc4_accurate, Np.clip_low.
    destruct (Rgt_dec x 0.0851858618842153) as [Hgt | _]; [ lra | ].
    rewrite Rmax_right; [ reflexivity | lra ]. }
  assert (Hbig : forall x, 0.0851858618842153 < x ->
                           1.5 < _log_decoding_logc4_accurate x).
  { intros x Hx. destruct (logc4_accurate_range x) as [H0 | H]; [ | exact H ].
    exfalso. revert H0. unfold _log_decoding_logc4_accurate, Np.clip_low.
    destruct (Rgt_dec x 0.0851858618842153) as [_ | Hn]; [ | lra ].
    assert (He : 4 / 9 < (x - 0.0562935137369496) / 0.0647954196341293) by lra.
    apply power10_lt in He. rewrite (@power_pos_base 10 (4 / 9)) in He by lra.
    pose proof pow10_four_ninths.
    set (p := Np.power 10 ((x - 0.0562935137369496) / 0.0647954196341293)) in *.
    rewrite Rmax_left by lra. lra. }
  repeat split; try assumption.
  intros x y Hxy.
  destruct (Rle_dec x 0.0851858618842153) as [Hx | Hx].
  - rewrite (Hzero x Hx). apply Hnonneg.
  - assert (Hxc : 0.0851858618842153 < x) by lra.
    assert (Hyc : 0.0851858618842153 < y) by lra.
    pose proof (Hbig x Hxc) as Hbx. pose proof (Hbig y Hyc) as Hby.
    revert Hbx Hby. unfold _log_decoding_logc4_accurate, Np.clip_low.
    destruct (Rgt_dec x 0.0851858618842153) as [_ | Hn]; [ | lra ].
    destruct (Rgt_dec y 0.0851858618842153) as [_ | Hn]; [ | lra ].
    assert (He : (x - 0.0562935137369496) / 0.0647954196341293
                 <= (y - 0.0562935137369496) / 0.0647954196341293) by lra.
    apply power10_le in He.
    set (px := Np.power 10 ((x - 0.0562935137369496) / 0.0647954196341293)) in *.
    set (py := Np.power 10 ((y - 0.0562935137369496) / 0.0647954196341293)) in *.
    intros Hbx Hby.
    unfold Rmax in *.
    repeat match goal with
           | |- context [Rle_dec ?a ?b] => destruct (Rle_dec a b)
           | H : context [Rle_dec ?a ?b] |- _ => destruct (Rle_dec a b)
           end; lra.
Qed.

(** The RED Log3 approximation is not monotone: at its threshold 0.01 the
    decoded value drops, so that code values from 0.002 up to the threshold
    decode to more light than code values from the threshold up to 0.5. *)
Theorem redlog3_drops_at_threshold (x y : R) :
  0.002 <= x < 0.01 -> 0.01 <= y <= 0.5 ->
  _log_decoding_redlog3_fallback y < _log_decoding_redlog3_fallback x.
Proof.
  intros Hx Hy. unfold _log_decoding_redlog3_fallback, Np.clip_low.
  destruct (Rge_dec x 0.01) as [Hbad | _]; [ lra | ].
  destruct (Rge_dec y 0.01) as [_ | Hbad]; [ | lra ].
  assert (He : (y * 1023 - 685) / 300 <= - (1 / 2)) by lra.
  apply power10_le in He.
  rewrite (@power_pos_base 10 (- (1 / 2))) in He by lra.
  pose proof pow10_minus_half as Hhalf.
  pose proof (@power_positive 10 ((y * 1023 - 685) / 300) ltac:(lra)) as Hpos.
  set (p := Np.power 10 ((y * 1023 - 685) / 300)) in *.
  rewrite (Rmax_left (p / 1023) 0) by lra.
  rewrite (Rmax_left (x * 0.224282) 0) by lra.
  lra.
Qed.

Lemma redlog3_drops_at_threshold_witness :
  _log_decoding_redlog3_fallback 0.4 < _log_decoding_redlog3_fallback 0.005.
Proof.
  apply (@redlog3_drops_at_threshold 0.005 0.4); lra.
Defined.

(** With the RED Log3 approximation no code value up to 1 decodes to as
    much as 0.0157: a grey pixel is never classified above the zone of
    stop -4. *)
Theorem redlog3_stays_dark (x : R) :
  x <= 1 ->
  _log_decoding_redlog3_fallback x < 0.0157 /\
  forall idx,
    in_zone idx (rgb_to_y_bt2020 (_log_decoding_redlog3_fallback x,
                                  _log_decoding_redlog3_fallback x,
                                  _log_decoding_redlog3_fallback x)) ->
    (idx <= 3)%nat.
Proof.
  intros Hx.
  assert (Hdark : _log_decoding_redlog3_fallback x < 0.0157).
  { unfold _log_decoding_redlog3_fallback, Np.clip_low.
    destruct (Rge_dec x 0.01) as [Hge | Hlt].
    - assert (He : (x * 1023 - 685) / 300 <= 6 / 5) by lra.
      apply power10_le in He. rewrite (@power_pos_base 10 (6 / 5)) in He by lra.
      pose proof pow10_six_fifths.
      pose proof (@power_positive 10 ((x * 1023 - 685) / 300) ltac:(lra)).
      set (p := Np.power 10 ((x * 1023 - 685) / 300)) in *.
      rewrite Rmax_left by lra. lra.
    - unfold Rmax. destruct (Rle_dec (x * 0.224282) 0); lra. }
  split; [ exact Hdark | ].
  intros idx Hz. rewrite rgb_to_y_gray in Hz.
  apply in_zone_iff in Hz. destruct Hz as (H17 & Hlo & _).
  destruct (Nat.le_gt_cases idx 3) as [H | H]; [ exact H | exfalso ].
  pose proof (@boundary_mono 4 idx ltac:(lia) ltac:(lia)).
  pose proof boundary_4_above. lra.
Qed.

Lemma redlog3_stays_dark_witness :
  _log_decoding_redlog3_fallback 1 < 0.0157 /\
  forall idx,
    in_zone idx (rgb_to_y_bt2020 (_log_decoding_redlog3_fallback 1,
                                  _log_decoding_redlog3_fallback 1,
                                  _log_decoding_redlog3_fallback 1)) ->
    (idx <= 3)%nat.
Proof.
  apply (@redlog3_stays_dark 1). lra.
Defined.

(** The Apple Log approximation is positive and strictly increasing, and
    decodes the code value 0.3584 to exactly 1. *)
Theorem apple_log_increasing :
  (forall x, 0 < _log_decoding_apple_log_fallback x) /\
  (forall x y, x < y ->
               _log_decoding_apple_log_fallback x
               < _log_decoding_apple_log_fallback y) /\
  _log_decoding_apple_log_fallback 0.3584 = 1.
Proof.
  unfold _log_decoding_apple_log_fallback. repeat split.
  - intros x. apply power_positive. lra.
  - intros x y Hxy. apply power10_lt. lra.
  - replace ((0.3584 - 0.3584) / 0.2471) with 0 by lra. apply power10_0.
Qed.

(** The generic fallback is positive and strictly increasing, decodes 0.5
    to exactly 1, and doubles with every 1/14 of code value: the whole
    signal range spans fourteen stops. *)
Theorem generic_fallback_stops :
  (forall x, 0 < _log_decoding_fallback x) /\
  (forall x y, x < y -> _log_decoding_fallback x < _log_decoding_fallback y) /\
  _log_decoding_fallback 0.5 = 1 /\
  (forall x, _log_decoding_fallback (x + 1 / 14) = 2 * _log_decoding_fallback x) /\
  _log_decoding_fallback 1 = 128 * _log_decoding_fallback 0.5.
Proof.
  unfold _log_decoding_fallback. repeat split.
  - intros x. apply power_positive. lra.
  - intros x y Hxy. apply power2_lt. lra.
  - replace ((0.5 - 0.5) * 14) with 0 by lra. apply power2_0.
  - intros x. replace ((x + 1 / 14 - 0.5) * 14) with (1 + (x - 0.5) * 14) by lra.
    rewrite power_add by lra. now rewrite power2_1.
  - replace ((0.5 - 0.5) * 14) with 0 by lra. rewrite power2_0.
    replace ((1 - 0.5) * 14) with (INR 7) by (simpl; lra).
    rewrite power_pos_base by lra. rewrite Rpower_pow by lra. lra.
Qed.

(** Only the selector "linear" leaves the processor without a decode
    function; every other string installs one. *)
Theorem no_decode_function_iff_linear (env : environment) (fmt : string) :
  decode_func (fst (init env fmt)) = None <-> fmt = "linear"%string.
Proof.
  unfold init, _get_decode_function.
  destruct (String.eqb_spec fmt "linear") as [-> | Hne].
  - cbn. tauto.
  - split; [ | contradiction ].
    destruct (String.eqb fmt "logc4").
    + destruct (HAS_COLOUR env); [ destruct (colour_has_ARRILogC4 env) | ];
        cbn; discriminate.
    + destruct (String.eqb fmt "slog3" && HAS_COLOUR env); [ cbn; discriminate | ].
      destruct (String.eqb fmt "apple_log"); [ cbn; discriminate | ].
      destruct (String.eqb fmt "redlog3"); cbn; discriminate.
Qed.

(** Without the [colour] package the selector "slog3", although a
    documented format, gets the generic fallback and the warning of an
    unsupported format; "logc4" gets the module's own curve silently. *)
Theorem slog3_needs_colour (env : environment) :
  HAS_COLOUR env = false ->
  _get_decode_function env "slog3"
  = (Some _log_decoding_fallback,
     ["Log format 'slog3' not supported, using fallback"%string]) /\
  _get_decode_function env "logc4" = (Some _log_decoding_logc4_accurate, []).
Proof.
  intros H. unfold _get_decode_function. rewrite H. split; reflexivity.
Qed.

Lemma slog3_needs_colour_witness :
  _get_decode_function env_without_colour "slog3"
  = (Some _log_decoding_fallback,
     ["Log format 'slog3' not supported, using fallback"%string]) /\
  _get_decode_function env_without_colour "logc4"
  = (Some _log_decoding_logc4_accurate, []).
Proof.
  apply (@slog3_needs_colour env_without_colour). reflexivity.
Defined.

(** A float frame with any sample above 1.0 is taken for 8-bit data: all
    its samples are divided by 255, highlights included.  For a maximum of
    at most 255 the result has its maximum at most 1 and is left alone by
    a second conversion. *)
Theorem highlights_taken_for_8bit (img : frame_R) (m : R) :
  array_max_R img = Some m -> 1 < m <= 255 ->
  to_unit_range_R img
  = Some (Np.map2d (per_channel (fun x => x / 255.0)) img) /\
  array_max_R (Np.map2d (per_channel (fun x => x / 255.0)) img)
  = Some (m / 255.0) /\
  to_unit_range_R (Np.map2d (per_channel (fun x => x / 255.0)) img)
  = Some (Np.map2d (per_channel (fun x => x / 255.0)) img).
Proof.
  intros Hmax Hm.
  assert (Hscaled := @array_max_scaled 255.0 img m ltac:(lra) Hmax).
  split; [ | split; [ exact Hscaled | ] ].
  - unfold to_unit_range_R. rewrite Hmax.
    destruct (Rgt_dec m 1.0) as [_ | Hn]; [ reflexivity | lra ].
  - unfold to_unit_range_R. rewrite Hscaled.
    destruct (Rgt_dec (m / 255.0) 1.0) as [Hbad | _]; [ lra | reflexivity ].
Qed.

Lemma highlights_taken_for_8bit_witness :
  to_unit_range_R [[(1.5, 0.5, 0.25)]]
  = Some (Np.map2d (per_channel (fun x => x / 255.0)) [[(1.5, 0.5, 0.25)]]) /\
  array_max_R (Np.map2d (per_channel (fun x => x / 255.0)) [[(1.5, 0.5, 0.25)]])
  = Some (1.5 / 255.0) /\
  to_unit_range_R (Np.map2d (per_channel (fun x => x / 255.0)) [[(1.5, 0.5, 0.25)]])
  = Some (Np.map2d (per_channel (fun x => x / 255.0)) [[(1.5, 0.5, 0.25)]]).
Proof.
  apply (@highlights_taken_for_8bit [[(1.5, 0.5, 0.25)]] 1.5).
  - unfold array_max_R. cbn [concat flat_map channels_R app fold_left].
    rewrite (Rmax_left 1.5 0.5) by lra. rewrite (Rmax_left 1.5 0.25) by lra.
    reflexivity.
  - lra.
Defined.

End CurveProperties.

Module PipelineFacts.
Import LogDecoder ZoneClassifier ELZone.

Local Open Scope R_scope.

Lemma fold_Rmax_const (v : R) (l : list R) :
  Forall (fun x => x = v) l -> fold_left Rmax l v = v.
Proof.
  induction 1 as [| x l -> _ IH]; simpl; [ reflexivity | ].
  rewrite Rmax_left by lra. exact IH.
Qed.

Lemma array_max_uniform (v : R) (img : frame_R) :
  concat img <> [] ->
  Forall (Forall (fun p => p = (v, v, v))) img ->
  array_max_R img = Some v.
Proof.
  intros Hne Hu. unfold array_max_R.
  assert (Hall : Forall (fun x => x = v) (flat_map channels_R (concat img))).
  { apply Forall_flat_map, Forall_concat.
    eapply Forall_impl; [ | exact Hu ].
    intros row Hrow. eapply Forall_impl; [ | exact Hrow ].
    intros p ->. repeat constructor. }
  destruct (concat img) as [| [[r g] b] rest]; [ contradiction | ].
  cbn [flat_map channels_R app] in *.
  inversion Hall as [| ? ? -> Hrest]; subst.
  now rewrite (fold_Rmax_const Hrest).
Qed.

Lemma map2d_const_on (A B : Type) (P : A -> Prop) (f : A -> B) (c : B)
      (a : Np.array2 A) :
  (forall x, P x -> f x = c) -> Forall (Forall P) a ->
  Np.map2d f a = Np.map2d (fun _ => c) a.
Proof.
  intros Hf Ha. unfold Np.map2d.
  induction Ha as [| row a Hrow _ IH]; simpl; [ reflexivity | ].
  f_equal; [ | exact IH ].
  induction Hrow as [| x row Hx _ IHr]; simpl; [ reflexivity | ].
  f_equal; [ now apply Hf | exact IHr ].
Qed.

End PipelineFacts.

Section PipelineProperties.
Import LogDecoder ZoneClassifier ZoneFacts DecoderFacts ELZone PipelineFacts.
Local Open Scope R_scope.

(** A uniformly grey frame of code value [v <= 1] gives a zone map of one
    solid colour: the display colour of the zone that contains the decoded
    level ([v] itself when no decode function is installed). *)
Theorem uniform_frame_solid_zone
        (self : ELZoneProcessor) (image : frame_R) (v : R) (idx : nat) :
  concat image <> [] ->
  Forall (Forall (fun p => p = (v, v, v))) image ->
  v <= 1 ->
  in_zone idx (match decode_func self with Some f => f v | None => v end) ->
  create_el_zone_map self image
  = Some (Np.map2d (fun _ => nth idx color_list_display black) image).
Proof.
  intros Hne Hu Hv Hz. unfold create_el_zone_map, to_unit_range_R.
  rewrite (array_max_uniform Hne Hu).
  destruct (Rgt_dec v 1.0) as [Hbad | _]; [ lra | ].
  rewrite map_luminance_to_zones_eq. f_equal.
  unfold decode_image.
  destruct (decode_func self) as [f |].
  - unfold Np.map2d at 1 2 3. rewrite !map_map.
    transitivity (Np.map2d (fun p => zone_color_px
                                       (rgb_to_y_bt2020 (per_channel f p))) image).
    { unfold Np.map2d. apply map_ext. intros row. now rewrite !map_map. }
    apply map2d_const_on with (2 := Hu).
    intros p ->. cbn [per_channel]. rewrite rgb_to_y_gray.
    now apply zone_color_px_matched.
  - transitivity (Np.map2d (fun p => zone_color_px (rgb_to_y_bt2020 p)) image).
    { unfold Np.map2d. rewrite map_map. apply map_ext. intros row.
      now rewrite map_map. }
    apply map2d_const_on with (2 := Hu).
    intros p ->. rewrite rgb_to_y_gray. now apply zone_color_px_matched.
Qed.

Lemma uniform_frame_solid_zone_witness :
  create_el_zone_map (fst (init env_without_colour "linear"))
                     [[(0.18, 0.18, 0.18); (0.18, 0.18, 0.18)]]
  = Some (Np.map2d (fun _ => nth 8 color_list_display black)
                   [[(0.18, 0.18, 0.18); (0.18, 0.18, 0.18)]]).
Proof.
  apply (@uniform_frame_solid_zone
           (fst (init env_without_colour "linear"))
           [[(0.18, 0.18, 0.18); (0.18, 0.18, 0.18)]] 0.18 8).
  - discriminate.
  - repeat constructor.
  - lra.
  - cbn. apply in_zone_iff. split; [ lia | ].
    rewrite <- stops_to_linear_0. unfold boundary. simpl nth. split.
    + apply Rlt_le, stops_to_linear_lt. reflexivity.
    + apply stops_to_linear_lt. reflexivity.
Defined.

End PipelineProperties.


(** ** Scopes: value ranges, sampling, trace rows *)

Module ScopeFacts.
Import Canvas Frame Ranges ArrayFacts WaveformFacts.

Local Open Scope Z_scope.

Lemma Forall_imap (A : Type) (P : A -> Prop) (f : nat -> A -> A) (l : list A) :
  (forall i x, P x -> P (f i x)) -> Forall P l -> Forall P (imap f l).
Proof. intros Hf Hl. unfold imap. now apply Forall_imap_from. Qed.

Lemma update_px_keeps (P : rgb8 -> Prop) (rows cols : Z) (a a' : canvas)
      (y x : Z) (f : rgb8 -> rgb8) :
  (forall p, P p -> P (f p)) ->
  Forall (Forall P) a ->
  update_px rows cols a y x f = Some a' -> Forall (Forall P) a'.
Proof.
  intros Hf Ha. unfold update_px.
  destruct (Np.index rows y) as [i |]; [ | discriminate ].
  destruct (Np.index cols x) as [j |]; [ | discriminate ].
  intros E. injection E as <-.
  apply Forall_imap; [ | exact Ha ].
  intros i' row Hrow. destruct (i' =? Z.to_nat i)%nat; [ | exact Hrow ].
  apply Forall_imap; [ | exact Hrow ].
  intros j' p Hp. destruct (j' =? Z.to_nat j)%nat; auto.
Qed.

Lemma Forall_fill (A : Type) (P : A -> Prop) (c : A) (row : list A) :
  P c -> Forall P (map (fun _ => c) row).
Proof. intros Hc. apply Forall_map, Forall_forall. auto. Qed.

Lemma fill_row_keeps (P : rgb8 -> Prop) (rows : Z) (a a' : canvas)
      (y : Z) (c : rgb8) :
  P c -> Forall (Forall P) a -> fill_row rows a y c = Some a' ->
  Forall (Forall P) a'.
Proof.
  intros Hc Ha. unfold fill_row.
  destruct (Np.index rows y) as [i |]; [ | discriminate ].
  intros E. injection E as <-.
  apply Forall_imap; [ | exact Ha ].
  intros i' row Hrow. destruct (i' =? Z.to_nat i)%nat; [ | exact Hrow ].
  now apply Forall_fill.
Qed.

Lemma fill_col_keeps (P : rgb8 -> Prop) (cols : Z) (a a' : canvas)
      (x : Z) (c : rgb8) :
  P c -> Forall (Forall P) a -> fill_col cols a x c = Some a' ->
  Forall (Forall P) a'.
Proof.
  intros Hc Ha. unfold fill_col.
  destruct (Np.index cols x) as [j |]; [ | discriminate ].
  intros E. injection E as <-.
  apply Forall_map. eapply Forall_impl; [ | exact Ha ].
  intros row Hrow. apply Forall_imap; [ | exact Hrow ].
  intros j' p Hp. destruct (j' =? Z.to_nat j)%nat; auto.
Qed.

Lemma fill_rows_keeps (P : rgb8 -> Prop) (rows : Z) (a : canvas)
      (start stop : Z) (c : rgb8) :
  P c -> Forall (Forall P) a -> Forall (Forall P) (fill_rows rows a start stop c).
Proof.
  intros Hc Ha. unfold fill_rows.
  apply Forall_imap; [ | exact Ha ].
  intros i' row Hrow. destruct (_ && _)%bool; [ | exact Hrow ].
  now apply Forall_fill.
Qed.

Lemma fold_left_none (A B : Type) (step : option A -> B -> option A) (l : list B) :
  (forall x, step None x = None) -> fold_left step l None = None.
Proof. intros H. induction l as [| x l IH]; simpl; [ | rewrite H ]; auto. Qed.

(** A loop whose rounds keep a property of the canvas keeps it to the end. *)
Lemma fold_keeps (B : Type) (P : canvas -> Prop)
      (step : option canvas -> B -> option canvas) (l : list B) :
  (forall x, step None x = None) ->
  (forall a a' x, P a -> step (Some a) x = Some a' -> P a') ->
  forall a a', P a -> fold_left step l (Some a) = Some a' -> P a'.
Proof.
  intros Hnone Hstep. induction l as [| x l IH]; intros a a' Ha; simpl.
  - intros E. injection E as <-. exact Ha.
  - destruct (step (Some a) x) as [a1 |] eqn:E1.
    + apply IH. eapply Hstep; eassumption.
    + rewrite fold_left_none by exact Hnone. discriminate.
Qed.

Lemma add_intensity_uint8 (p : rgb8) : uint8 p -> uint8 (VectorScope.add_intensity p).
Proof.
  destruct p as [[r g] b]. unfold uint8, VectorScope.add_intensity, Np.clipZ. lia.
Qed.

Lemma tint_uint8 (p : rgb8) : uint8 p -> uint8 (Waveform.tint p).
Proof. destruct p as [[r g] b]. unfold uint8, Waveform.tint. lia. Qed.

(** ** Ranges and strides *)

Lemma range_fuel_count (fuel : nat) :
  forall start stop step,
    0 < step ->
    Z.of_nat (length (Py.range_fuel fuel start stop step)) * step
    < Z.max 0 (stop - start) + step.
Proof.
  induction fuel as [| k IH]; intros start stop step Hstep; simpl.
  - lia.
  - destruct (Z.ltb_spec start stop) as [Hlt | Hge]; [ | simpl; lia ].
    specialize (IH (start + step) stop step Hstep).
    cbn [length]. rewrite Nat2Z.inj_succ.
    set (n := Z.of_nat (length (Py.range_fuel k (start + step) stop step))) in *.
    assert (Hn : 0 <= n) by (subst n; lia).
    assert (Hcase : n = 0 \/ step <= n * step) by nia.
    replace (Z.succ n * step) with (n * step + step) by lia.
    set (m := n * step) in *.
    destruct Hcase as [-> | Hm]; lia.
Qed.

Lemma stride_fuel_count (A : Type) (fuel : nat) :
  forall (step : nat) (l : list A),
    (0 < step)%nat ->
    (length (Py.stride_fuel fuel step l) * step < length l + step)%nat.
Proof.
  induction fuel as [| k IH]; intros step l Hstep; simpl; [ lia | ].
  destruct l as [| x l']; [ simpl; lia | ].
  specialize (IH step (skipn step (x :: l')) Hstep).
  rewrite length_skipn in IH. cbn [length] in *.
  set (n := length (Py.stride_fuel k step (skipn step (x :: l')))) in *.
  assert (Hcase : n = 0%nat \/ (step <= n * step)%nat) by nia.
  replace (S n * step)%nat with (n * step + step)%nat by lia.
  set (m := (n * step)%nat) in *.
  destruct Hcase as [E | Hm]; lia.
Qed.

Lemma sample_coords_count (n : Z) :
  (length (VectorScope.sample_coords n) <= 99)%nat.
Proof.
  unfold VectorScope.sample_coords, Py.range.
  set (step := Z.max 1 (n / 50)).
  assert (Hstep : 0 < step) by (subst step; lia).
  pose proof (range_fuel_count (Z.to_nat (n - 0)) 0 n Hstep) as H.
  set (c := Z.of_nat (length (Py.range_fuel (Z.to_nat (n - 0)) 0 n step))) in *.
  assert (Hc : c <= 99); [ | subst c; lia ].
  destruct (Z.lt_ge_cases n 50) as [Hsmall | Hbig].
  - assert (step = 1).
    { subst step. assert (n / 50 <= 0); [ | lia ].
      destruct (Z.lt_ge_cases n 0) as [Hneg | Hpos].
      - apply Z.lt_le_incl, Z.div_lt_upper_bound; lia.
      - rewrite Z.div_small by lia. lia. }
    lia.
  - assert (Hs : step = n / 50).
    { subst step. assert (1 <= n / 50) by (apply Z.div_le_lower_bound; lia). lia. }
    pose proof (Z.div_mod n 50 ltac:(lia)) as Hdm.
    pose proof (Z.mod_pos_bound n 50 ltac:(lia)) as Hmod.
    assert (Hs1 : 1 <= step) by lia.
    replace (n - 0) with n in H by lia.
    assert (Hlt : c * step < 100 * step) by lia.
    nia.
Qed.

Lemma flat_map_count (A B : Type) (f : A -> list B) (k : nat) (l : list A) :
  (forall x, length (f x) <= k)%nat ->
  (length (flat_map f l) <= length l * k)%nat.
Proof.
  intros Hf. induction l as [| x l IH]; simpl; [ lia | ].
  rewrite length_app. specialize (Hf x). lia.
Qed.

(** ** Rows of the waveform trace *)

Local Open Scope Q_scope.

Lemma Qfloor_add_Z (q : Q) (n : Z) : Qfloor (q + inject_Z n) = (Qfloor q + n)%Z.
Proof.
  apply Qfloor_unique.
  - rewrite inject_Z_plus. pose proof (Qfloor_le q). lra.
  - replace (Qfloor q + n + 1)%Z with ((Qfloor q + 1) + n)%Z by lia.
    rewrite inject_Z_plus. pose proof (Qlt_floor q). lra.
Qed.

Lemma clipQ_unit_mono (a b : Q) :
  a <= b -> Np.clipQ a 0 1 <= Np.clipQ b 0 1.
Proof.
  intros H. unfold Np.clipQ.
  apply Q.min_le_compat_r. now apply Q.max_le_compat_r.
Qed.

Lemma marker_row_spec (size : Z * Z) (f : Q) :
  (40 <= snd size)%Z -> 0 <= f -> f <= 1 ->
  Waveform.marker_row size f = (Qfloor (inject_Z (snd size - 40) * f) + 20)%Z /\
  (20 <= Waveform.marker_row size f <= snd size - 20)%Z.
Proof.
  intros HH Hf0 Hf1. unfold Waveform.marker_row.
  pose proof (@inject_Z_nonneg (snd size - 40) ltac:(lia)) as HX.
  set (X := inject_Z (snd size - 40)) in *.
  assert (H0 : 0 <= X * f) by nra.
  assert (H1 : X * f <= X) by nra.
  rewrite int_nonneg by exact H0.
  split; [ reflexivity | ].
  apply Qfloor_resp_le in H0, H1. subst X. rewrite Qfloor_Z in H1.
  change (Qfloor 0) with 0%Z in H0. lia.
Qed.

(** The row of a sample is the marker row of the complement of its
    clipped luminance. *)
Lemma y_position_marker (size : Z * Z) (luma : Q) :
  (40 <= snd size)%Z ->
  Waveform.y_position size luma
  = Waveform.marker_row size (1 - Np.clipQ luma 0 1).
Proof.
  intros HH.
  destruct (@clipQ_bounds luma 0 1 ltac:(lra)) as [Hc0 Hc1].
  set (c := Np.clipQ luma 0 1) in *.
  destruct (@marker_row_spec size (1 - c) HH ltac:(lra) ltac:(lra)) as [Em Hm].
  unfold Waveform.y_position. fold c.
  pose proof (@inject_Z_nonneg (snd size - 40) ltac:(lia)) as HX.
  set (X := inject_Z (snd size - 40)) in *.
  assert (Hq : 0 <= (1 - c) * X + 20) by nra.
  rewrite int_nonneg by exact Hq.
  assert (E : (1 - c) * X + 20 == X * (1 - c) + inject_Z 20) by (change (inject_Z 20) with 20; ring).
  rewrite (Qfloor_comp _ _ E), Qfloor_add_Z.
  rewrite Em in Hm |- *. unfold Np.clipZ. lia.
Qed.

Lemma marker_row_Qeq (size : Z * Z) (f g : Q) :
  f == g -> Waveform.marker_row size f = Waveform.marker_row size g.
Proof.
  intros E. unfold Waveform.marker_row, Py.int.
  assert (Eq : inject_Z (snd size - 40) * f == inject_Z (snd size - 40) * g)
    by now rewrite E.
  destruct (inject_Z (snd size - 40) * f) as [n1 d1].
  destruct (inject_Z (snd size - 40) * g) as [n2 d2].
  unfold Qeq in Eq. simpl in *. f_equal.
  assert (H : (n1 * Z.pos d2 = n2 * Z.pos d1)%Z) by exact Eq.
  rewrite <- (Z.quot_mul_cancel_r n1 (Z.pos d1) (Z.pos d2)) by lia.
  rewrite H.
  rewrite (Z.mul_comm (Z.pos d1) (Z.pos d2)).
  apply Z.quot_mul_cancel_r; lia.
Qed.

End ScopeFacts.

Section ScopeProperties.
Import Canvas Frame Ranges VectorScope Waveform ArrayFacts VectorScopeFacts
       WaveformFacts ScopeFacts.
Local Open Scope Z_scope.

(** Plotting density marks never takes a canvas sample out of the byte
    range: the added intensity saturates at 255 instead of wrapping. *)
Theorem vectorscope_plot_stays_uint8
        (size : Z * Z) (log_image : frame) (vectorscope : canvas) :
  Forall (Forall uint8) vectorscope ->
  match plot_density size log_image vectorscope with
  | Some plotted => Forall (Forall uint8) plotted
  | None => True
  end.
Proof.
  intros Hvs.
  destruct (plot_density size log_image vectorscope) as [plotted |] eqn:E;
    [ | exact I ].
  unfold plot_density in E. revert E.
  apply fold_keeps with (P := fun a => Forall (Forall uint8) a); [ | | exact Hvs ].
  - intros y. apply fold_left_none. reflexivity.
  - intros a a' y Ha.
    apply fold_keeps with (P := fun a => Forall (Forall uint8) a); [ | | exact Ha ].
    + reflexivity.
    + intros b b' x Hb. unfold plot_pixel.
      destruct (fetch _ _ _ y x) as [px |]; [ | discriminate ].
      destruct (mark_position size px) as [[xc yc] |].
      * apply update_px_keeps; [ apply add_intensity_uint8 | exact Hb ].
      * intros E. injection E as <-. exact Hb.
Qed.

Lemma vectorscope_plot_stays_uint8_witness :
  match plot_density (4, 3) [[(1, 0, 0); (0, 0, 1)]%Q]
                     (repeat (repeat (0, 0, 0) 4) 3) with
  | Some plotted => Forall (Forall uint8) plotted
  | None => True
  end.
Proof.
  apply (@vectorscope_plot_stays_uint8
           (4, 3) [[(1, 0, 0); (0, 0, 1)]%Q] (repeat (repeat (0, 0, 0) 4) 3)).
  repeat constructor; lia.
Defined.

(** A frame whose every sample has luma at most 0.01 plots nothing: the
    canvas comes back unchanged, whatever its size. *)
Theorem dark_frame_plots_nothing
        (size : Z * Z) (log_image : frame) (vectorscope : canvas) :
  Np.has_shape (height log_image) (width log_image) log_image ->
  Forall (Forall (fun p : sample =>
                    let '(r, g, b) := p in
                    (0.299 * r + 0.587 * g + 0.114 * b <= 0.01)%Q)) log_image ->
  Forall (fun mark => mark = None) (density_marks size log_image) /\
  plot_density size log_image vectorscope = Some vectorscope.
Proof.
  intros Hshape Hdark.
  assert (Hmarks : Forall (fun mark => mark = None) (density_marks size log_image)).
  { unfold density_marks.
    apply Forall_flat_map, Forall_forall. intros img_y _.
    apply Forall_map, Forall_forall. intros img_x _.
    destruct (fetch _ _ _ img_y img_x) as [px |] eqn:Epx; [ | reflexivity ].
    assert (Hpx : Np.Qltb 0.01 (fst (fst px)) = false).
    { apply (@fetch_Forall _ (fun q => Np.Qltb 0.01 (fst (fst q)) = false)
               _ _ _ _ _ _) with (2 := Epx).
      unfold Np.map2d. apply Forall_map.
      eapply Forall_impl; [ | exact Hdark ].
      intros row Hrow. apply Forall_map.
      eapply Forall_impl; [ | exact Hrow ].
      intros [[r g] b] Hp. cbn [rgb_to_yuv fst].
      apply not_true_iff_false. rewrite Qltb_true_iff. lra. }
    destruct px as [[py pu] pv]. cbn [fst] in Hpx.
    unfold mark_position. now rewrite Hpx. }
  split; [ exact Hmarks | ].
  rewrite plot_density_writes_marks by exact Hshape.
  induction Hmarks as [| m marks -> _ IH]; simpl; [ reflexivity | exact IH ].
Qed.

Lemma dark_frame_plots_nothing_witness :
  Forall (fun mark => mark = None)
         (density_marks (4, 3) [[(0, 0, 0); (0.01, 0.01, 0.01)]%Q]) /\
  plot_density (4, 3) [[(0, 0, 0); (0.01, 0.01, 0.01)]%Q]
               (repeat (repeat (0, 0, 0) 4) 3)
  = Some (repeat (repeat (0, 0, 0) 4) 3).
Proof.
  apply (@dark_frame_plots_nothing
           (4, 3) [[(0, 0, 0); (0.01, 0.01, 0.01)]%Q]
           (repeat (repeat (0, 0, 0) 4) 3)).
  - split; [ reflexivity | repeat constructor ].
  - repeat constructor; vm_compute; discriminate.
Defined.

(** The vectorscope looks at no more than 99 positions along each axis,
    hence at no more than 9801 samples, whatever the frame resolution. *)
Theorem vectorscope_sampling_bounded (size : Z * Z) (log_image : frame) :
  (length (sample_coords (width log_image)) <= 99)%nat /\
  (length (sample_coords (height log_image)) <= 99)%nat /\
  Z.of_nat (length (density_marks size log_image)) <= 9801.
Proof.
  pose proof (sample_coords_count (width log_image)) as Hw.
  pose proof (sample_coords_count (height log_image)) as Hh.
  split; [ exact Hw | split; [ exact Hh | ] ].
  unfold density_marks.
  pose proof (@flat_map_count _ _
                (fun img_y =>
                   map (fun img_x =>
                          match fetch (height log_image) (width log_image)
                                      (Np.map2d rgb_to_yuv log_image) img_y img_x with
                          | Some px => mark_position size px
                          | None => None
                          end) (sample_coords (width log_image)))
                99%nat (sample_coords (height log_image))) as Hcount.
  cbv beta in Hcount.
  assert (Hinner : forall x : Z,
             (length (map (fun img_x =>
                             match fetch (height log_image) (width log_image)
                                         (Np.map2d rgb_to_yuv log_image) x img_x with
                             | Some px => mark_position size px
                             | None => None
                             end) (sample_coords (width log_image))) <= 99)%nat).
  { intros x. now rewrite length_map. }
  specialize (Hcount Hinner). apply inj_le in Hcount, Hh.
  rewrite Nat2Z.inj_mul in Hcount.
  change (Z.of_nat 99) with 99 in *. nia.
Qed.

(** On a canvas at least 40 rows high every sample of the waveform is
    drawn between the 100% line (row 20) and the 0% line (row height - 20),
    and a brighter sample is never drawn lower. *)
Theorem waveform_rows_between_lines (size : Z * Z) (luma1 luma2 : Q) :
  40 <= snd size -> (luma1 <= luma2)%Q ->
  20 <= y_position size luma2 <= y_position size luma1 /\
  y_position size luma1 <= snd size - 20.
Proof.
  intros HH Hle.
  rewrite !y_position_marker by exact HH.
  destruct (@clipQ_bounds luma1 0 1 ltac:(lra)) as [H10 H11].
  destruct (@clipQ_bounds luma2 0 1 ltac:(lra)) as [H20 H21].
  pose proof (clipQ_unit_mono Hle) as Hmono.
  set (c1 := Np.clipQ luma1 0 1) in *. set (c2 := Np.clipQ luma2 0 1) in *.
  destruct (@marker_row_spec size (1 - c1) HH ltac:(lra) ltac:(lra)) as [E1 B1].
  destruct (@marker_row_spec size (1 - c2) HH ltac:(lra) ltac:(lra)) as [E2 B2].
  split; [ split; [ lia | ] | lia ].
  rewrite E1, E2.
  pose proof (@inject_Z_nonneg (snd size - 40) ltac:(lia)) as HX.
  assert (Hprod : (inject_Z (snd size - 40) * (1 - c2)
                   <= inject_Z (snd size - 40) * (1 - c1))%Q) by nra.
  apply Qfloor_resp_le in Hprod. lia.
Qed.

Lemma waveform_rows_between_lines_witness :
  20 <= y_position (480, 540) 0.9 <= y_position (480, 540) 0.1 /\
  y_position (480, 540) 0.1 <= snd (480, 540) - 20.
Proof.
  apply (@waveform_rows_between_lines (480, 540) 0.1%Q 0.9%Q).
  - simpl. lia.
  - vm_compute. discriminate.
Defined.

(** A sample exactly at the level of one of the five grid lines (0, 25,
    50, 75 or 100 percent of the signal range) is drawn in the very row of
    that line: the grid, drawn afterwards, lies over such samples. *)
Theorem waveform_levels_meet_grid (size : Z * Z) (percent : Z) :
  40 <= snd size -> In percent [0; 25; 50; 75; 100] ->
  y_position size (inject_Z percent / 100) = percent_row size percent.
Proof.
  intros HH Hin.
  assert (Hp : 0 <= percent <= 100).
  { simpl in Hin. decompose [or] Hin; subst; first [ lia | contradiction ]. }
  rewrite y_position_marker by exact HH.
  unfold percent_row.
  change (Py.int (inject_Z (snd size - 40) * (1 - inject_Z percent / 100)) + 20)
    with (marker_row size (1 - inject_Z percent / 100)).
  apply marker_row_Qeq.
  assert (H0 : (0 <= inject_Z percent / 100)%Q).
  { apply Qle_shift_div_l; [ reflexivity | ].
    pose proof (@inject_Z_nonneg percent ltac:(lia)). lra. }
  assert (H1 : (inject_Z percent / 100 <= 1)%Q).
  { apply Qle_shift_div_r; [ reflexivity | ].
    assert (inject_Z percent <= inject_Z 100)%Q by (rewrite <- Zle_Qle; lia).
    change (inject_Z 100) with 100%Q in *. lra. }
  now rewrite (clipQ_inside H0 H1).
Qed.

Lemma waveform_levels_meet_grid_witness :
  y_position (480, 540) (inject_Z 75 / 100) = percent_row (480, 540) 75.
Proof.
  apply (@waveform_levels_meet_grid (480, 540) 75); simpl; [ lia | tauto ].
Defined.

(** On a canvas of at least one column and forty rows no guard of the grid
    ever skips a line: the five percent rows lie between row 20 and row
    height - 20, lower percentages further down, and the seven tick
    columns lie inside the canvas. *)
Theorem waveform_grid_inside_canvas (size : Z * Z) :
  1 <= fst size -> 40 <= snd size ->
  (forall p q, 0 <= p <= q -> q <= 100 ->
               20 <= percent_row size q <= percent_row size p /\
               percent_row size p <= snd size - 20) /\
  (forall i, 1 <= i <= 7 -> 0 <= tick_column size i < fst size).
Proof.
  intros HW HH. split.
  - intros p q Hpq Hq.
    assert (Hfrac : forall k, 0 <= k <= 100 ->
                              (0 <= 1 - inject_Z k / 100 /\ 1 - inject_Z k / 100 <= 1)%Q).
    { intros k Hk.
      assert (H0 : (0 <= inject_Z k / 100)%Q).
      { apply Qle_shift_div_l; [ reflexivity | ].
        pose proof (@inject_Z_nonneg k ltac:(lia)). lra. }
      assert (H1 : (inject_Z k / 100 <= 1)%Q).
      { apply Qle_shift_div_r; [ reflexivity | ].
        assert (inject_Z k <= inject_Z 100)%Q by (rewrite <- Zle_Qle; lia).
        change (inject_Z 100) with 100%Q in *. lra. }
      lra. }
    destruct (Hfrac p ltac:(lia)) as [Hp0 Hp1].
    destruct (Hfrac q ltac:(lia)) as [Hq0 Hq1].
    change (percent_row size q) with (marker_row size (1 - inject_Z q / 100)).
    change (percent_row size p) with (marker_row size (1 - inject_Z p / 100)).
    destruct (marker_row_spec size HH Hp0 Hp1) as [Ep Bp].
    destruct (marker_row_spec size HH Hq0 Hq1) as [Eq Bq].
    split; [ split; [ lia | ] | lia ].
    rewrite Ep, Eq.
    pose proof (@inject_Z_nonneg (snd size - 40) ltac:(lia)) as HX.
    assert (Hpq' : (inject_Z p <= inject_Z q)%Q) by (rewrite <- Zle_Qle; lia).
    assert (Hdiv : (inject_Z p / 100 <= inject_Z q / 100)%Q).
    { unfold Qdiv. apply Qmult_le_compat_r; [ exact Hpq' | vm_compute; discriminate ]. }
    assert (Hprod : (inject_Z (snd size - 40) * (1 - inject_Z q / 100)
                     <= inject_Z (snd size - 40) * (1 - inject_Z p / 100))%Q) by nra.
    apply Qfloor_resp_le in Hprod. lia.
  - intros i Hi. split; [ apply tick_column_nonneg; lia | ].
    unfold tick_column.
    assert (Hq0 : (0 <= inject_Z (fst size * i) / 8)%Q).
    { apply Qle_shift_div_l; [ reflexivity | ].
      pose proof (@inject_Z_nonneg (fst size * i) ltac:(nia)). lra. }
    rewrite int_nonneg by exact Hq0.
    assert (Hlt : (inject_Z (fst size * i) / 8 < inject_Z (fst size))%Q).
    { apply Qlt_shift_div_r; [ reflexivity | ].
      change 8%Q with (inject_Z 8).
      rewrite <- (inject_Z_mult (fst size) 8), <- Zlt_Qlt. nia. }
    pose proof (Qfloor_le (inject_Z (fst size * i) / 8)) as Hfl.
    assert (Hz : (inject_Z (Qfloor (inject_Z (fst size * i) / 8))
                  < inject_Z (fst size))%Q) by lra.
    now rewrite <- Zlt_Qlt in Hz.
Qed.

Lemma waveform_grid_inside_canvas_witness :
  (forall p q, 0 <= p <= q -> q <= 100 ->
               20 <= percent_row (480, 540) q <= percent_row (480, 540) p /\
               percent_row (480, 540) p <= snd (480, 540) - 20) /\
  (forall i, 1 <= i <= 7 -> 0 <= tick_column (480, 540) i < fst (480, 540)).
Proof.
  apply (@waveform_grid_inside_canvas (480, 540)); simpl; lia.
Defined.

(** In every canvas column the waveform draws at most 399 samples,
    however tall the frame is. *)
Theorem waveform_sampling_bounded (luma_column : list Q) :
  (length (Py.stride (Z.max 1 (Z.of_nat (length luma_column) / 200))
                     luma_column) <= 399)%nat.
Proof.
  unfold Py.stride.
  set (n := length luma_column).
  set (step := Z.max 1 (Z.of_nat n / 200)).
  assert (Hstep : (0 < Z.to_nat step)%nat) by (subst step; lia).
  pose proof (@stride_fuel_count Q n (Z.to_nat step) luma_column Hstep) as H.
  fold n in H.
  set (c := length (Py.stride_fuel n (Z.to_nat step) luma_column)) in *.
  destruct (Z.lt_ge_cases (Z.of_nat n) 200) as [Hsmall | Hbig].
  - assert (Es : Z.to_nat step = 1%nat).
    { subst step. rewrite Z.div_small by lia. reflexivity. }
    rewrite Es in H. lia.
  - assert (Es : step = Z.of_nat n / 200).
    { subst step.
      assert (1 <= Z.of_nat n / 200) by (apply Z.div_le_lower_bound; lia). lia. }
    pose proof (Z.div_mod (Z.of_nat n) 200 ltac:(lia)) as Hdm.
    pose proof (Z.mod_pos_bound (Z.of_nat n) 200 ltac:(lia)) as Hmod.
    assert (Hs1 : 1 <= step) by (subst step; lia).
    assert (Hz : Z.of_nat c * step < Z.of_nat n + step).
    { rewrite <- (Z2Nat.id step) by lia. rewrite <- Nat2Z.inj_mul, <- Nat2Z.inj_add.
      apply inj_lt. exact H. }
    assert (Z.of_nat c <= 399); [ | lia ].
    assert (Hlt : Z.of_nat c * step < 400 * step) by lia.
    nia.
Qed.

End ScopeProperties.

Module WaveformRangeFacts.
Import Canvas Frame Ranges Waveform ArrayFacts WaveformFacts ScopeFacts.

Local Open Scope Z_scope.

Lemma zeros_uint8 (rows cols : Z) (a : canvas) :
  zeros rows cols = Some a -> Forall (Forall uint8) a.
Proof.
  unfold zeros. destruct (_ || _)%bool; [ discriminate | ].
  intros E. injection E as <-.
  apply Forall_forall. intros row Hrow. apply repeat_spec in Hrow. subst row.
  apply Forall_forall. intros p Hp. apply repeat_spec in Hp. subst p.
  unfold uint8. lia.
Qed.

Lemma option_bind_some (A B : Type) (o : option A) (f : A -> option B) (b : B) :
  match o with Some v => f v | None => None end = Some b ->
  exists v, o = Some v /\ f v = Some b.
Proof. destruct o as [v |]; [ intros E; now exists v | discriminate ]. Qed.

Lemma draw_trace_column_uint8 (size : Z * Z) (x : Z) (ys : list Z)
      (a a' : canvas) :
  Forall (Forall uint8) a ->
  draw_trace_column size (Some a) x ys = Some a' -> Forall (Forall uint8) a'.
Proof.
  unfold draw_trace_column.
  apply fold_keeps with (P := fun c => Forall (Forall uint8) c).
  - reflexivity.
  - intros b b' y Hb. apply update_px_keeps; [ apply tint_uint8 | exact Hb ].
Qed.

Lemma trace_loop_uint8 (size : Z * Z) (w : Z) (lum : Np.array2 Q)
      (columns : list (Z * Z)) :
  forall a a',
    Forall (Forall uint8) a ->
    trace_loop size w lum columns a = Some a' -> Forall (Forall uint8) a'.
Proof.
  induction columns as [| [k x] cols IH]; intros a a' Ha; cbn [trace_loop].
  - intros E. injection E as <-. exact Ha.
  - destruct (fst size <=? k); [ intros E; injection E as <-; exact Ha | ].
    destruct (column w lum x) as [col |]; [ | discriminate ].
    cbv zeta. intros E. apply option_bind_some in E.
    destruct E as (a1 & E1 & E2).
    apply (IH a1 a'); [ | exact E2 ].
    eapply draw_trace_column_uint8; eassumption.
Qed.

Lemma draw_waveform_grid_uint8 (size : Z * Z) (a a' : canvas) :
  Forall (Forall uint8) a ->
  _draw_waveform_grid a size = Some a' -> Forall (Forall uint8) a'.
Proof.
  intros Ha. unfold _draw_waveform_grid. cbv zeta.
  destruct (fold_left (draw_percent_line size) [0; 25; 50; 75; 100] (Some a))
    as [a1 |] eqn:E1.
  - assert (H1 : Forall (Forall uint8) a1).
    { revert E1. apply fold_keeps with (P := fun c => Forall (Forall uint8) c);
        [ reflexivity | | exact Ha ].
      intros b b' p Hb. unfold draw_percent_line.
      destruct (_ && _)%bool.
      - apply fill_row_keeps; [ unfold uint8, grid_color; lia | exact Hb ].
      - intros E. injection E as <-. exact Hb. }
    destruct (fold_left (draw_tick size) (Py.range 1 8 1) (Some a1))
      as [a2 |] eqn:E2; [ | discriminate ].
    assert (H2 : Forall (Forall uint8) a2).
    { revert E2. apply fold_keeps with (P := fun c => Forall (Forall uint8) c);
        [ reflexivity | | exact H1 ].
      intros b b' i Hb. unfold draw_tick.
      destruct (_ <? _).
      - apply fill_col_keeps; [ unfold uint8; lia | exact Hb ].
      - intros E. injection E as <-. exact Hb. }
    intros E. injection E as <-. unfold draw_markers. cbv zeta.
    repeat (apply fill_rows_keeps; [ unfold uint8; lia | ]). exact H2.
  - rewrite fold_left_none by reflexivity. discriminate.
Qed.

Lemma to_float_unit (a : canvas) :
  Forall (Forall uint8) a -> Forall (Forall unit_sample) (to_float a).
Proof.
  intros Ha. unfold to_float, Np.map2d. apply Forall_map.
  eapply Forall_impl; [ | exact Ha ].
  intros row Hrow. apply Forall_map.
  eapply Forall_impl; [ | exact Hrow ].
  intros [[r g] b] (Hr & Hg & Hb). unfold unit_sample.
  assert (Hunit : forall c, 0 <= c <= 255 ->
                            (0 <= inject_Z c / 255 /\ inject_Z c / 255 <= 1)%Q).
  { intros c [H0 H1]. split.
    - apply Qle_shift_div_l; [ reflexivity | ].
      pose proof (inject_Z_nonneg H0). lra.
    - apply Qle_shift_div_r; [ reflexivity | ].
      assert (inject_Z c <= inject_Z 255)%Q by (rewrite <- Zle_Qle; lia).
      change (inject_Z 255) with 255%Q in *. lra. }
  destruct (Hunit r Hr), (Hunit g Hg), (Hunit b Hb). tauto.
Qed.

End WaveformRangeFacts.

Section WaveformRange.
Import Canvas Frame Ranges Waveform WaveformRangeFacts.
Local Open Scope Z_scope.

(** Whenever [create_waveform] returns, the canvas it built holds bytes
    only (the tint saturates at 255) and every channel of the returned
    image lies in [0, 1]. *)
Theorem waveform_image_unit_range (image : frame) (size : Z * Z) :
  match waveform_canvas image size with
  | Some waveform => Forall (Forall uint8) waveform
  | None => True
  end /\
  match create_waveform image size with
  | Some out => Forall (Forall unit_sample) out
  | None => True
  end.
Proof.
  assert (H : match waveform_canvas image size with
              | Some waveform => Forall (Forall uint8) waveform
              | None => True
              end).
  { unfold waveform_canvas.
    destruct (to_unit_range image) as [log_image |]; [ | exact I ].
    destruct (zeros (snd size) (fst size)) as [bare |] eqn:Ez; [ | exact I ].
    destruct (plot_trace size log_image bare) as [traced |] eqn:Et; [ | exact I ].
    destruct (_draw_waveform_grid traced size) as [grid |] eqn:Eg; [ | exact I ].
    eapply draw_waveform_grid_uint8; [ | exact Eg ].
    unfold plot_trace in Et.
    eapply trace_loop_uint8; [ | exact Et ].
    eapply zeros_uint8, Ez. }
  split; [ exact H | ].
  unfold create_waveform.
  destruct (waveform_canvas image size) as [waveform |]; [ | exact I ].
  cbn [option_map]. now apply to_float_unit.
Qed.

End WaveformRange.


(** ** Compositor: aspect ratio, letterbox, output width, resolution *)

Module LayoutFacts.
Import Compositor Layout ArrayFacts CompositorFacts WaveformFacts.

Local Open Scope Z_scope.

Lemma fill_width_result (pil : Z -> Z -> bool) (h w target_w target_h : Z)
      (r : Z * Z) :
  0 < w -> 0 <= h -> 0 <= target_w ->
  _resize_to_fill_width pil (h, w) (target_w, target_h) = Some r ->
  r = ((h * target_w) / w, target_w).
Proof.
  intros Hw Hh Ht. unfold _resize_to_fill_width. cbn [fst].
  destruct (Z.eqb_spec w 0) as [E0 | _]; [ lia | ].
  rewrite int_scaled by assumption.
  destruct (pil _ _); [ | discriminate ].
  intros E. now injection E as <-.
Qed.

Lemma fill_width_columns (pil : Z -> Z -> bool) (shape target : Z * Z)
      (r : Z * Z) :
  _resize_to_fill_width pil shape target = Some r -> snd r = fst target.
Proof.
  destruct shape as [h w]. unfold _resize_to_fill_width.
  destruct (w =? 0); [ discriminate | ].
  destruct (pil _ _); [ | discriminate ].
  intros E. now injection E as <-.
Qed.


End LayoutFacts.

Section LayoutProperties.
Import Compositor Layout ArrayFacts CompositorFacts WaveformFacts LayoutFacts.
Local Open Scope Z_scope.



(** The layout needs an even output width: for an odd width of 5 or more
    the right-hand placements have one column more than the images resized
    to the quadrant width, and the layout raises. *)
Theorem odd_output_width_raises
        (pil : Z -> Z -> bool)
        (original_shape el_zone_shape vectorscope_shape waveform_shape : Z * Z)
        (out_w out_h : Z) :
  5 <= out_w -> Z.odd out_w = true ->
  create_4_quadrant_layout pil original_shape el_zone_shape
                           vectorscope_shape waveform_shape (out_w, out_h)
  = None.
Proof.
  intros Hw Hodd. unfold create_4_quadrant_layout. cbn [fst snd].
  destruct ((out_h <? 0) || (out_w <? 0))%bool; [ reflexivity | ].
  destruct (_resize_to_fill_width pil original_shape _) as [orig |];
    [ | reflexivity ].
  destruct (_resize_to_fill_width pil el_zone_shape _) as [ez |] eqn:Eez;
    [ | reflexivity ].
  destruct (_resize_to_fit pil vectorscope_shape _) as [vs |]; [ | reflexivity ].
  destruct (_resize_to_fit pil waveform_shape _) as [wf |]; [ | reflexivity ].
  apply fill_width_columns in Eez. cbn [fst] in Eez.
  assert (Hbad : Np.assignable
                   (Py.slice_length out_h 0 (fst orig),
                    Py.slice_length out_w (out_w / 2) out_w) ez = false).
  { assert (Hhalf : 0 <= out_w / 2 < out_w).
    { split; [ apply Z.div_pos; lia | apply Z.div_lt; lia ]. }
    assert (Ecols : Py.slice_length out_w (out_w / 2) out_w = out_w - out_w / 2)
      by (apply slice_length_inside; lia).
    pose proof (Z.div_mod out_w 2 ltac:(lia)) as Hdm.
    rewrite Zmod_odd, Hodd in Hdm.
    unfold Np.assignable. cbn [fst snd]. rewrite Eez, Ecols.
    destruct (Z.eqb_spec (out_w / 2) (out_w - out_w / 2)) as [E | _]; [ lia | ].
    destruct (Z.eqb_spec (out_w / 2) 1) as [E | _]; [ lia | ].
    apply andb_false_r. }
  rewrite Hbad. now rewrite andb_false_r.
Qed.

Lemma odd_output_width_raises_witness :
  create_4_quadrant_layout (fun _ _ => true) (1080, 1920) (1080, 1920)
                           (540, 480) (540, 480) (1921, 1080)
  = None.
Proof.
  apply (@odd_output_width_raises (fun _ _ => true)
           (1080, 1920) (1080, 1920) (540, 480) (540, 480) 1921 1080).
  - lia.
  - reflexivity.
Defined.





End LayoutProperties.
